(** * PixiJSGrid: a shallow embedding of [src/pixijs-grid.js]

    The class [PixiJSGrid] draws a square grid on a host drawing surface and
    maps pointer coordinates to grid cells.  This development embeds the class
    as Rocq functions over an explicit object state and proves the properties
    that its specification states about it.

    Numbers.  JavaScript numbers are modelled as exact rational values
    extended with [+Infinity], [-Infinity] and [NaN]: the arithmetic is the
    arithmetic of IEEE doubles with the rounding left out, and with a single
    zero (the class does not observe the sign of a zero: its only divisor is
    the cell size, the setter replaces a zero it is handed, and the zero it
    stores instead is the root of a width that is a square, the positive
    zero).  Finite results are kept in lowest terms, so that equal numbers
    are equal terms.  A square root need not be rational: [Math_sqrt] returns
    the exact root, either as a number or as the surd of its radicand, and
    [RealRoot] at the end relates the two to the square root of the real
    numbers.

    Rounding.  The arithmetic of the program rounds where that of the model
    does not, and the two agree where the program's results are exact: on the
    integers up to 2^53 in magnitude, which are doubles, whose sums,
    differences and products are computed exactly as long as they stay in that
    range, and of which the quotient by a positive integer, though rounded,
    has the integer part of the exact quotient.  The statements whose truth
    depends on the values computed are therefore stated of integer positions,
    widths, cell sizes and coordinates, with the bounds that keep every
    intermediate result in that range; the statements that hold whatever the
    arithmetic computes are stated of all values.  [Binary64] has the
    expressions of the class in the binary64 arithmetic of the kernel: it
    gives the inputs at which rounding makes the program depart from the
    exact values, and checks the agreement of the two on ranges of integers.

    The host.  The class extends a drawing surface of the graphics library
    that hosts it (PIXI.Graphics), which is not part of the repository; the
    surface is modelled in [Graphics] by what the class needs of it: a
    position, a line style, and the segments drawn. *)

From Stdlib Require Import ZArith Znumtheory QArith Qround Qreduction Qcanon.
From Stdlib Require Import List Bool Lia Lqa.
From Stdlib Require Reals Qreals Lra.
From Stdlib Require Floats.
Import ListNotations.

Open Scope Q_scope.

(** ** Numbers *)

Inductive number : Type :=
| Fin (q : Q)
| PInf
| NInf
| NaN.

(** A finite value, in lowest terms. *)
Definition fin (q : Q) : number := Fin (Qred q).

(** The infinity with the sign of [q]; [0 * Infinity] and [0 / 0] are [NaN]. *)
Definition signed_inf (q : Q) : number :=
  match q ?= 0 with
  | Gt => PInf
  | Lt => NInf
  | Eq => NaN
  end.

(** [a + b], not rounded. *)
Definition number_add (a b : number) : number :=
  match a, b with
  | NaN, _ | _, NaN => NaN
  | Fin p, Fin q => fin (p + q)
  | PInf, NInf | NInf, PInf => NaN
  | PInf, _ | _, PInf => PInf
  | NInf, _ | _, NInf => NInf
  end.

(** [a - b], not rounded. *)
Definition number_sub (a b : number) : number :=
  match a, b with
  | NaN, _ | _, NaN => NaN
  | Fin p, Fin q => fin (p - q)
  | PInf, PInf | NInf, NInf => NaN
  | PInf, _ | _, NInf => PInf
  | NInf, _ | _, PInf => NInf
  end.

(** [a * b], not rounded. *)
Definition number_mul (a b : number) : number :=
  match a, b with
  | NaN, _ | _, NaN => NaN
  | Fin p, Fin q => fin (p * q)
  | Fin p, PInf | PInf, Fin p => signed_inf p
  | Fin p, NInf | NInf, Fin p => signed_inf (- p)
  | PInf, PInf | NInf, NInf => PInf
  | PInf, NInf | NInf, PInf => NInf
  end.

(** [a / b], not rounded; a zero divisor is the positive zero. *)
Definition number_div (a b : number) : number :=
  match a, b with
  | NaN, _ | _, NaN => NaN
  | Fin p, Fin q => if Qeq_bool q 0 then signed_inf p else fin (p / q)
  | Fin _, PInf | Fin _, NInf => Fin 0
  | PInf, Fin q => if Qle_bool 0 q then PInf else NInf
  | NInf, Fin q => if Qle_bool 0 q then NInf else PInf
  | _, _ => NaN
  end.

(** [a <= b]; every comparison with [NaN] is false. *)
Definition number_leb (a b : number) : bool :=
  match a, b with
  | NaN, _ | _, NaN => false
  | Fin p, Fin q => Qle_bool p q
  | NInf, _ => true
  | _, PInf => true
  | _, _ => false
  end.

(** [a >= b] *)
Definition number_geb (a b : number) : bool := number_leb b a.

(** [a < b] *)
Definition number_ltb (a b : number) : bool :=
  number_leb a b && negb (number_leb b a).

(** [a ** 2] *)
Definition number_sq (a : number) : number := number_mul a a.

(** [Math.floor(a)] *)
Definition Math_floor (a : number) : number :=
  match a with
  | Fin q => Fin (inject_Z (Qfloor q))
  | other => other
  end.

(** Truthiness of a number: [0] and [NaN] are falsy. *)
Definition number_truthy (a : number) : bool :=
  match a with
  | Fin q => negb (Qeq_bool q 0)
  | NaN => false
  | _ => true
  end.

(** *** Square roots *)

(** The exact value of a square root: a number, or the irrational root of a
    positive rational [q], which is no number of the model. *)
Inductive root : Type :=
| Exact (x : number)
| Surd (q : Q).

(** The rational root of [q], when its reduced numerator and denominator are
    both squares. *)
Definition Qsqrt_exact (q : Q) : option Q :=
  let r := Qred q in
  let n := Qnum r in
  let d := Zpos (Qden r) in
  let sn := Z.sqrt n in
  let sd := Z.sqrt d in
  if ((sn * sn =? n) && (sd * sd =? d))%Z
  then Some (sn # Z.to_pos sd)
  else None.

(** [Math.sqrt(a)], not rounded: the exact root. *)
Definition Math_sqrt (a : number) : root :=
  match a with
  | Fin q =>
      if Qle_bool 0 q then
        match Qsqrt_exact q with
        | Some r => Exact (Fin r)
        | None => Surd q
        end
      else Exact NaN
  | PInf => Exact PInf
  | NInf | NaN => Exact NaN
  end.

(** [Math.ceil(r)], of a square root.  The ceiling of the root of [q] is the
    least natural number whose square reaches [q], which is the integer
    square root, rounded up, of the ceiling of [q]. *)
Definition Math_ceil (r : root) : number :=
  match r with
  | Exact (Fin q) => Fin (inject_Z (Qceiling q))
  | Exact other => other
  | Surd q => Fin (inject_Z (Z.sqrt_up (Qceiling q)))
  end.

(** A root that is stored or used in arithmetic must be a number; the surds lie
    outside the values the model computes with. *)
Definition root_number (r : root) : option number :=
  match r with
  | Exact x => Some x
  | Surd _ => None
  end.

(** *** Doubles

    The numbers of JavaScript are the doubles of IEEE 754, and its arithmetic
    rounds every result to the nearest double.  [Binary64] has the
    expressions of the class whose value depends on that rounding, over the
    binary64 numbers of the kernel, which round as JavaScript does. *)

Module Binary64.

(** The double nearest to an integer from 0 to 2^63 - 1; an integer up to
    2^53 is a double itself. *)
Definition of_Z (z : Z) : PrimFloat.float :=
  PrimFloat.of_uint63 (Uint63.of_Z z).

(** The same, for an integer of either sign. *)
Definition of_signed_Z (z : Z) : PrimFloat.float :=
  if (z <? 0)%Z then PrimFloat.opp (of_Z (- z)) else of_Z z.

(** The double [a / b] that the division of the integer [a] by the integer
    [b] returns: 0.1 is [quotient 1 10]. *)
Definition quotient (a b : Z) : PrimFloat.float :=
  PrimFloat.div (of_signed_Z a) (of_signed_Z b).

(** The number that a double stands for. *)
Definition to_number (x : PrimFloat.float) : number :=
  match FloatOps.Prim2SF x with
  | SpecFloat.S754_zero _ => Fin 0
  | SpecFloat.S754_infinity false => PInf
  | SpecFloat.S754_infinity true => NInf
  | SpecFloat.S754_nan => NaN
  | SpecFloat.S754_finite s m e =>
      fin (inject_Z (if s then Z.neg m else Z.pos m) * Qpower 2 e)
  end.

(** [Math.sqrt(x)] *)
Definition Math_sqrt (x : PrimFloat.float) : PrimFloat.float :=
  PrimFloat.sqrt x.

(** [Math.ceil(x)].  A finite double other than zero is [m * 2^e], negated
    when [s] is set; with [0 <= e] it is an integer, and otherwise it is less
    than 2^53 in magnitude, and so is the integer next to it. *)
Definition Math_ceil (x : PrimFloat.float) : PrimFloat.float :=
  match FloatOps.Prim2SF x with
  | SpecFloat.S754_finite s m e =>
      if (0 <=? e)%Z then x
      else
        let q := (Z.pos m / 2 ^ (- e))%Z in
        let r := (Z.pos m mod 2 ^ (- e))%Z in
        if s then
          if (q =? 0)%Z then PrimFloat.neg_zero else PrimFloat.opp (of_Z q)
        else of_Z (if (r =? 0)%Z then q else q + 1)
  | _ => x
  end.

(** [Math.floor(x)] *)
Definition Math_floor (x : PrimFloat.float) : PrimFloat.float :=
  match FloatOps.Prim2SF x with
  | SpecFloat.S754_finite s m e =>
      if (0 <=? e)%Z then x
      else
        let q := (Z.pos m / 2 ^ (- e))%Z in
        let r := (Z.pos m mod 2 ^ (- e))%Z in
        if s then PrimFloat.opp (of_Z (if (r =? 0)%Z then q else q + 1))
        else of_Z q
  | _ => x
  end.

(** [Math.ceil(Math.sqrt(w)) ** 2], the width that [_correctWidth] assigns
    for the requested width [w]. *)
Definition corrected_width (w : PrimFloat.float) : PrimFloat.float :=
  let c := Math_ceil (Math_sqrt w) in
  PrimFloat.mul c c.

(** [correctedWidth / cellSize], what [amtLines] returns. *)
Definition amtLines (correctedWidth cellSize : PrimFloat.float)
    : PrimFloat.float :=
  PrimFloat.div correctedWidth cellSize.

(** [Math.floor((x - x1) / cellSize)], the index that [getCellCoordinates]
    returns for the coordinate [x] on a grid whose bounds start at [x1]. *)
Definition cell_index (x x1 cellSize : PrimFloat.float) : PrimFloat.float :=
  Math_floor (PrimFloat.div (PrimFloat.sub x x1) cellSize).

(** The test of the listener, for a pointer at [(px, py)] on a grid at
    [(x, y)] whose width in use is [correctedWidth]: [bounds.x2] and
    [bounds.y2] are [x + correctedWidth] and [y + correctedWidth]. *)
Definition within_bounds (px py x y correctedWidth : PrimFloat.float) : bool :=
  PrimFloat.leb x px &&
  PrimFloat.leb px (PrimFloat.add x correctedWidth) &&
  PrimFloat.leb y py &&
  PrimFloat.leb py (PrimFloat.add y correctedWidth).

(** The offset [i * cellSize] at which the loop of [drawGrid] draws the
    lines of the counter [i]. *)
Definition line_offset (i cellSize : PrimFloat.float) : PrimFloat.float :=
  PrimFloat.mul i cellSize.

(** The loop of [drawGrid] is
    [for (let i = (drawBoundaries ? 0 : 1);
          i <= amtLines - (drawBoundaries ? 0 : 1); i += 1)]: the counter it
    starts from, and the bound of the counter. *)
Definition first_counter (drawBoundaries : bool) : PrimFloat.float :=
  if drawBoundaries then PrimFloat.zero else PrimFloat.one.

Definition loop_bound (amtLines : PrimFloat.float) (drawBoundaries : bool)
    : PrimFloat.float :=
  PrimFloat.sub amtLines
    (if drawBoundaries then PrimFloat.zero else PrimFloat.one).

(** The number of rounds that the loop makes from the counter [i] on, [fuel]
    at most. *)
Fixpoint rounds (fuel : nat) (i bound : PrimFloat.float) : nat :=
  match fuel with
  | O => O
  | S fuel =>
      if PrimFloat.leb i bound
      then S (rounds fuel (PrimFloat.add i PrimFloat.one) bound)
      else O
  end.

End Binary64.

(** ** Values

    The values the class is handed where it documents an optional number:
    [undefined] (an omitted argument), [null], or a number. *)

Inductive value : Type :=
| VUndefined
| VNull
| VNum (n : number).

(** The coercion that the arithmetic operators apply to their operands. *)
Definition ToNumber (v : value) : number :=
  match v with
  | VUndefined => NaN
  | VNull => Fin 0
  | VNum n => n
  end.

(** Truthiness: [undefined], [null], [0] and [NaN] are falsy. *)
Definition ToBoolean (v : value) : bool :=
  match v with
  | VNum n => number_truthy n
  | _ => false
  end.

(** A parameter with a default value takes it when the argument is
    [undefined]. *)
Definition default_value (dflt v : value) : value :=
  match v with
  | VUndefined => dflt
  | _ => v
  end.

Definition default_bool (dflt : bool) (v : option bool) : bool :=
  match v with
  | Some b => b
  | None => dflt
  end.

(** What a method returns: the object itself, or nothing. *)
Inductive result : Type :=
| This
| Undefined.

(** ** The host drawing surface *)

Module Point.
(** A pair [{x, y}] of coordinates. *)
Record t : Type := mk { x : number; y : number }.
End Point.

Module LineStyle.
(** A line style [{width, color, alpha, alignment, native}]. *)
Record t : Type := mk {
  width : number;
  color : number;
  alpha : number;
  alignment : number;
  native : bool
}.
End LineStyle.

Module Bounds.
(** The corners [{x1, y1, x2, y2}] that [bounds] returns. *)
Record t : Type := mk { x1 : number; y1 : number; x2 : number; y2 : number }.
End Bounds.

Module Graphics.

(** Modelled from the spec: a line segment drawn on the host surface, which
    the class extends (PIXI.Graphics) and this repository does not contain.
    A segment runs between two points in the surface's local coordinates and
    carries the line style it was drawn with. *)
Record Segment : Type := mkSegment {
  from : Point.t;
  to : Point.t;
  style : LineStyle.t
}.

(** Modelled from the spec: the state of the host drawing surface
    (PIXI.Graphics): its position in the parent's coordinates, the line
    style in effect, the style it reverts to when cleared, the end of the
    path being drawn, the segments drawn so far and the interactivity
    flag. *)
Record t : Type := mk {
  x : number;
  y : number;
  line : LineStyle.t;
  defaultLine : LineStyle.t;
  currentPath : option Point.t;
  geometry : list Segment;
  interactive : bool
}.

(** Modelled from the spec: a fresh surface, at the origin, with nothing
    drawn and the host's default line style [d]. *)
Definition create (d : LineStyle.t) : t :=
  mk (Fin 0) (Fin 0) d d None [] false.

(** Modelled from the spec: [lineStyle(width, color, alpha, alignment,
    native)] of the host surface sets the line style in effect. *)
Definition lineStyle (width color alpha alignment : number) (native : bool)
    (s : t) : t :=
  mk (x s) (y s) (LineStyle.mk width color alpha alignment native)
     (defaultLine s) (currentPath s) (geometry s) (interactive s).

(** Modelled from the spec: [clear()] of the host surface removes all drawn
    geometry and reverts the line style to the surface's own default. *)
Definition clear (s : t) : t :=
  mk (x s) (y s) (defaultLine s) (defaultLine s) None [] (interactive s).

(** Modelled from the spec: [moveTo(x, y)] of the host surface starts a path
    at the point. *)
Definition moveTo (px py : number) (s : t) : t :=
  mk (x s) (y s) (line s) (defaultLine s) (Some (Point.mk px py))
     (geometry s) (interactive s).

(** Modelled from the spec: [lineTo(x, y)] of the host surface draws a
    segment, in the line style in effect, from the end of the current path
    (the origin when there is none) to the point, which becomes the end of
    the path. *)
Definition lineTo (px py : number) (s : t) : t :=
  let start :=
    match currentPath s with
    | Some p => p
    | None => Point.mk (Fin 0) (Fin 0)
    end in
  mk (x s) (y s) (line s) (defaultLine s) (Some (Point.mk px py))
     (geometry s ++ [mkSegment start (Point.mk px py) (line s)])
     (interactive s).

(** Modelled from the spec: [endFill()] of the host surface ends the path
    being drawn. *)
Definition endFill (s : t) : t :=
  mk (x s) (y s) (line s) (defaultLine s) None (geometry s) (interactive s).

(** Modelled from the spec: the assignment of the interactivity flag of the
    host surface. *)
Definition set_interactive (b : bool) (s : t) : t :=
  mk (x s) (y s) (line s) (defaultLine s) (currentPath s) (geometry s) b.

(** Modelled from the spec: the assignment of the position of the host
    surface, which the host scene graph owns. *)
Definition set_position (px py : number) (s : t) : t :=
  mk px py (line s) (defaultLine s) (currentPath s) (geometry s)
     (interactive s).

End Graphics.

Module InteractionEvent.
(** Modelled from the spec: a pointer-move notification of the host event
    system.  It carries the pointer's position in global coordinates
    ([evt.data.global]) and is otherwise opaque; [stamp] tells two
    notifications apart. *)
Record t : Type := mk { global : Point.t; stamp : nat }.
End InteractionEvent.

(** ** The class *)

(** [DEFAULT_LINE_STYLE] *)
Definition DEFAULT_LINE_STYLE : LineStyle.t :=
  LineStyle.mk (Fin 1) (Fin 16777215) (Fin 1) (Fin (1 # 2)) true.

(** An object of the class: the surface it extends and the fields the
    constructor creates. *)
Record PixiJSGrid : Type := mkPixiJSGrid {
  super : Graphics.t;
  _cellSize : value;
  _amtLines : value;
  _gridWidth : value;
  _doCorrectWidth : bool;
  _correctedWidth : value;
  _drawBoundaries : bool
}.

(** Assignments to the fields. *)
Definition with_super (s : Graphics.t) (this : PixiJSGrid) : PixiJSGrid :=
  mkPixiJSGrid s (_cellSize this) (_amtLines this) (_gridWidth this)
    (_doCorrectWidth this) (_correctedWidth this) (_drawBoundaries this).

Definition with_cellSize (v : value) (this : PixiJSGrid) : PixiJSGrid :=
  mkPixiJSGrid (super this) v (_amtLines this) (_gridWidth this)
    (_doCorrectWidth this) (_correctedWidth this) (_drawBoundaries this).

Definition with_amtLines (v : value) (this : PixiJSGrid) : PixiJSGrid :=
  mkPixiJSGrid (super this) (_cellSize this) v (_gridWidth this)
    (_doCorrectWidth this) (_correctedWidth this) (_drawBoundaries this).

Definition with_gridWidth (v : value) (this : PixiJSGrid) : PixiJSGrid :=
  mkPixiJSGrid (super this) (_cellSize this) (_amtLines this) v
    (_doCorrectWidth this) (_correctedWidth this) (_drawBoundaries this).

Definition with_doCorrectWidth (b : bool) (this : PixiJSGrid) : PixiJSGrid :=
  mkPixiJSGrid (super this) (_cellSize this) (_amtLines this) (_gridWidth this)
    b (_correctedWidth this) (_drawBoundaries this).

Definition with_correctedWidth (v : value) (this : PixiJSGrid) : PixiJSGrid :=
  mkPixiJSGrid (super this) (_cellSize this) (_amtLines this) (_gridWidth this)
    (_doCorrectWidth this) v (_drawBoundaries this).

Definition with_drawBoundaries (b : bool) (this : PixiJSGrid) : PixiJSGrid :=
  mkPixiJSGrid (super this) (_cellSize this) (_amtLines this) (_gridWidth this)
    (_doCorrectWidth this) (_correctedWidth this) b.

(** A method of the surface, called on the object. *)
Definition on_super (f : Graphics.t -> Graphics.t) (this : PixiJSGrid)
    : PixiJSGrid :=
  with_super (f (super this)) this.

(** [set cellSize(cellSize = null)]: the right operand of [||] is evaluated
    only when the left one is falsy. *)
Definition set_cellSize (cellSize : value) (this : PixiJSGrid)
    : option PixiJSGrid :=
  let cellSize := default_value VNull cellSize in
  if ToBoolean cellSize then Some (with_cellSize cellSize this)
  else
    match root_number (Math_sqrt (ToNumber (_correctedWidth this))) with
    | Some r => Some (with_cellSize (VNum r) this)
    | None => None
    end.

(** [get cellSize()] *)
Definition cellSize (this : PixiJSGrid) : value := _cellSize this.

(** [get amtLines()] *)
Definition amtLines (this : PixiJSGrid) : number :=
  number_div (ToNumber (_correctedWidth this)) (ToNumber (cellSize this)).

(** [get bounds()] *)
Definition bounds (this : PixiJSGrid) : Bounds.t :=
  Bounds.mk
    (Graphics.x (super this))
    (Graphics.y (super this))
    (number_add (Graphics.x (super this)) (ToNumber (_correctedWidth this)))
    (number_add (Graphics.y (super this)) (ToNumber (_correctedWidth this))).

(** [get gridWidth()] *)
Definition gridWidth (this : PixiJSGrid) : value := _correctedWidth this.

(** [_correctWidth()]: the assignment under the [if] is followed by the
    unconditional one. *)
Definition _correctWidth (this : PixiJSGrid) : PixiJSGrid :=
  let this :=
    if negb (_doCorrectWidth this)
    then with_correctedWidth (_gridWidth this) this
    else this in
  with_correctedWidth
    (VNum (number_sq (Math_ceil (Math_sqrt (ToNumber (_gridWidth this))))))
    this.

(** [getCellCoordinates(x, y)] *)
Definition getCellCoordinates (x y : number) (this : PixiJSGrid) : Point.t :=
  Point.mk
    (Math_floor (number_div (number_sub x (Bounds.x1 (bounds this)))
                            (ToNumber (cellSize this))))
    (Math_floor (number_div (number_sub y (Bounds.y1 (bounds this)))
                            (ToNumber (cellSize this)))).

(** A call [onMousemove(evt, gridCoords)] of the hook, whose body is empty:
    all there is to a call is that it is made, and with which arguments. *)
Record HookCall : Type := onMousemove {
  evt : InteractionEvent.t;
  gridCoords : Point.t
}.

(** The listener that the constructor subscribes to ['mousemove']: the calls
    of the hook that one notification makes. *)
Definition mousemove_listener (this : PixiJSGrid) (evt : InteractionEvent.t)
    : list HookCall :=
  let mouseCoords := InteractionEvent.global evt in
  if number_geb (Point.x mouseCoords) (Bounds.x1 (bounds this)) &&
     number_leb (Point.x mouseCoords) (Bounds.x2 (bounds this)) &&
     number_geb (Point.y mouseCoords) (Bounds.y1 (bounds this)) &&
     number_leb (Point.y mouseCoords) (Bounds.y2 (bounds this))
  then
    let gridCoords :=
      getCellCoordinates (Point.x mouseCoords) (Point.y mouseCoords) this in
    [onMousemove evt gridCoords]
  else [].

(** [clearGrid(retainLineStyle = true)] *)
Definition clearGrid (retainLineStyle : option bool) (this : PixiJSGrid)
    : result * PixiJSGrid :=
  let retainLineStyle := default_bool true retainLineStyle in
  let l := Graphics.line (super this) in
  let this := on_super Graphics.clear this in
  if negb retainLineStyle then (Undefined, this)
  else
    let this :=
      on_super
        (Graphics.lineStyle (LineStyle.width l) (LineStyle.color l)
           (LineStyle.alpha l) (LineStyle.alignment l) (LineStyle.native l))
        this in
    (This, this).

(** The loop of [drawGrid()], from the counter [i] on.  The loop runs as long
    as its condition holds, which is forever when the bound is [+Infinity];
    [fuel] bounds the number of times the condition is tested, and [None] says
    that it was not enough. *)
Fixpoint drawGrid_loop (fuel : nat) (i : number) (this : PixiJSGrid)
    : option PixiJSGrid :=
  match fuel with
  | O => None
  | S fuel =>
      if number_leb i
           (number_sub (amtLines this)
              (if _drawBoundaries this then Fin 0 else Fin 1))
      then
        let startCoord := number_mul i (ToNumber (_cellSize this)) in
        let this := on_super (Graphics.moveTo startCoord (Fin 0)) this in
        let this :=
          on_super
            (Graphics.lineTo startCoord (ToNumber (_correctedWidth this)))
            this in
        let this := on_super (Graphics.moveTo (Fin 0) startCoord) this in
        let this :=
          on_super
            (Graphics.lineTo (ToNumber (_correctedWidth this)) startCoord)
            this in
        drawGrid_loop fuel (number_add i (Fin 1)) this
      else Some this
  end.

(** [drawGrid()] *)
Definition drawGrid (fuel : nat) (this : PixiJSGrid)
    : option (result * PixiJSGrid) :=
  let this := snd (clearGrid (Some true) this) in
  match
    drawGrid_loop fuel (if _drawBoundaries this then Fin 0 else Fin 1) this
  with
  | Some this =>
      let this := on_super Graphics.endFill this in
      Some (This, this)
  | None => None
  end.

(** [new PixiJSGrid(width, cellSize = null, lineConfig = null,
    doCorrectWidth = true, drawBoundaries = true)], on a host whose default
    line style is [hostLine]. *)
Definition new_PixiJSGrid (hostLine : LineStyle.t) (width cellSize : value)
    (lineConfig : option LineStyle.t)
    (doCorrectWidth drawBoundaries : option bool)
    : option PixiJSGrid :=
  let cellSize := default_value VNull cellSize in
  let doCorrectWidth := default_bool true doCorrectWidth in
  let drawBoundaries := default_bool true drawBoundaries in
  let this :=
    mkPixiJSGrid (Graphics.create hostLine) VUndefined VUndefined VUndefined
      false VUndefined false in
  let this := with_cellSize VNull this in
  let this := with_amtLines VNull this in
  let this := with_gridWidth width this in
  let this := with_doCorrectWidth doCorrectWidth this in
  let this := with_correctedWidth VNull this in
  let this := _correctWidth this in
  let this := with_drawBoundaries drawBoundaries this in
  match set_cellSize cellSize this with
  | None => None
  | Some this =>
      let lConfig :=
        match lineConfig with
        | Some c => c
        | None => DEFAULT_LINE_STYLE
        end in
      let this :=
        on_super
          (Graphics.lineStyle (LineStyle.width lConfig)
             (LineStyle.color lConfig) (LineStyle.alpha lConfig)
             (LineStyle.alignment lConfig) (LineStyle.native lConfig))
          this in
      let this := on_super (Graphics.set_interactive true) this in
      Some this
  end.

(** ** Notions used by the statements *)

(** The width that [_correctWidth] computes is the square of a natural number,
    [+Infinity], or [NaN]. *)
Definition square_width (this : PixiJSGrid) : Prop :=
  _correctedWidth this = VNum NaN \/
  _correctedWidth this = VNum PInf \/
  exists n : Z,
    (0 <= n)%Z /\ _correctedWidth this = VNum (Fin (inject_Z (n * n))).

(** The object on which the constructor calls the setter. *)
Definition before_set_cellSize (hostLine : LineStyle.t) (width : value)
    (doCorrectWidth drawBoundaries : option bool) : PixiJSGrid :=
  with_drawBoundaries (default_bool true drawBoundaries)
    (_correctWidth
       (mkPixiJSGrid (Graphics.create hostLine) VNull VNull width
          (default_bool true doCorrectWidth) VNull false)).

(** The line style the constructor applies. *)
Definition applied_line (lineConfig : option LineStyle.t) : LineStyle.t :=
  match lineConfig with
  | Some c => c
  | None => DEFAULT_LINE_STYLE
  end.

(** The surface of a new object. *)
Definition new_surface (hostLine : LineStyle.t)
    (lineConfig : option LineStyle.t) : Graphics.t :=
  Graphics.mk (Fin 0) (Fin 0) (applied_line lineConfig) hostLine None [] true.

(** A default line style of a host, for the examples. *)
Definition example_hostLine : LineStyle.t :=
  LineStyle.mk (Fin 0) (Fin 0) (Fin 1) (Fin (1 # 2)) false.

(** What drawing leaves alone: everything on the surface but the geometry
    and the path being drawn. *)
Definition same_setup (s s' : Graphics.t) : Prop :=
  Graphics.x s' = Graphics.x s /\
  Graphics.y s' = Graphics.y s /\
  Graphics.line s' = Graphics.line s /\
  Graphics.defaultLine s' = Graphics.defaultLine s /\
  Graphics.interactive s' = Graphics.interactive s.

(** Two objects with the same fields of their own, whose surfaces differ at
    most in what is drawn. *)
Definition same_grid (this this' : PixiJSGrid) : Prop :=
  with_super (super this) this' = this /\
  same_setup (super this) (super this').

(** The two lines that one round of the loop draws, at the counter [i]. *)
Definition draw_lines_at (i : number) (this : PixiJSGrid) : PixiJSGrid :=
  let startCoord := number_mul i (ToNumber (_cellSize this)) in
  on_super (Graphics.lineTo (ToNumber (_correctedWidth this)) startCoord)
    (on_super (Graphics.moveTo (Fin 0) startCoord)
       (on_super (Graphics.lineTo startCoord (ToNumber (_correctedWidth this)))
          (on_super (Graphics.moveTo startCoord (Fin 0)) this))).

(** The object after [clearGrid(true)]: nothing drawn, the line style kept. *)
Definition cleared (this : PixiJSGrid) : PixiJSGrid :=
  with_super
    (Graphics.mk (Graphics.x (super this)) (Graphics.y (super this))
       (Graphics.line (super this)) (Graphics.defaultLine (super this))
       None [] (Graphics.interactive (super this)))
    this.

(** An object is made by the constructor; afterwards the cell size is
    assigned, the host acts on the surface (placing it, for instance), and the
    grid is drawn and cleared. *)
Inductive reachable : PixiJSGrid -> Prop :=
| reach_new (hostLine : LineStyle.t) (width cs : value)
    (lineConfig : option LineStyle.t) (dcw db : option bool)
    (this : PixiJSGrid) :
    new_PixiJSGrid hostLine width cs lineConfig dcw db = Some this ->
    reachable this
| reach_set_cellSize (v : value) (this this' : PixiJSGrid) :
    reachable this -> set_cellSize v this = Some this' -> reachable this'
| reach_surface (f : Graphics.t -> Graphics.t) (this : PixiJSGrid) :
    reachable this -> reachable (on_super f this)
| reach_clearGrid (b : option bool) (this : PixiJSGrid) :
    reachable this -> reachable (snd (clearGrid b this))
| reach_drawGrid (fuel : nat) (this this' : PixiJSGrid) (r : result) :
    reachable this -> drawGrid fuel this = Some (r, this') -> reachable this'.

(** The invariant that the specification states of the cell size:
    [cellSize > 0]. *)
Definition cellSize_positive (this : PixiJSGrid) : Prop :=
  number_ltb (Fin 0) (ToNumber (cellSize this)) = true.

(** The object [new PixiJSGrid(16)], on the example host. *)
Definition grid16 : PixiJSGrid :=
  mkPixiJSGrid (new_surface example_hostLine None) (VNum (Fin 4)) VNull
    (VNum (Fin 16)) true (VNum (Fin 16)) true.

(** The pointer lies within the bounds, both edges included. *)
Definition within_bounds (b : Bounds.t) (p : Point.t) : Prop :=
  number_leb (Bounds.x1 b) (Point.x p) = true /\
  number_leb (Point.x p) (Bounds.x2 b) = true /\
  number_leb (Bounds.y1 b) (Point.y p) = true /\
  number_leb (Point.y p) (Bounds.y2 b) = true.

(** The indices [first], [first + 1], ..., [count] of them. *)
Definition indices (first : Z) (count : nat) : list Z :=
  map (fun k : nat => (first + Z.of_nat k)%Z) (seq 0 count).

(** The vertical line of index [i]: at the offset [i * cellSize], from 0 to the
    width in use. *)
Definition column (style : LineStyle.t) (cs cw : number) (i : Z)
    : Graphics.Segment :=
  Graphics.mkSegment
    (Point.mk (number_mul (Fin (inject_Z i)) cs) (Fin 0))
    (Point.mk (number_mul (Fin (inject_Z i)) cs) cw)
    style.

(** The horizontal line of index [i]. *)
Definition row (style : LineStyle.t) (cs cw : number) (i : Z)
    : Graphics.Segment :=
  Graphics.mkSegment
    (Point.mk (Fin 0) (number_mul (Fin (inject_Z i)) cs))
    (Point.mk cw (number_mul (Fin (inject_Z i)) cs))
    style.

(** The lines of the given indices, in the order of drawing: for each index
    its column, then its row. *)
Definition grid_lines (style : LineStyle.t) (cs cw : number) (idx : list Z)
    : list Graphics.Segment :=
  flat_map (fun i : Z => [column style cs cw i; row style cs cw i]) idx.

(** The rounds of the loop over the given indices. *)
Definition draw_rounds (idx : list Z) (this : PixiJSGrid) : PixiJSGrid :=
  fold_left (fun g i => draw_lines_at (Fin (inject_Z i)) g) idx this.

(** The lines that [drawGrid()] draws on a grid whose width in use [cw] and
    cell size [cs] are finite, with [0 <= cw] and [0 < cs]: those of the
    indices from 0 to the floor of [cw / cs] when the boundaries are drawn,
    and from 1 to that floor less 1 when they are not. *)
Definition drawn_indices (drawBoundaries : bool) (cw cs : Q) : list Z :=
  if drawBoundaries
  then indices 0 (Z.to_nat (Qfloor (cw / cs) + 1))
  else indices 1 (Z.to_nat (Qfloor (cw / cs) - 1)).

(** The object [new PixiJSGrid(25, 10)], on the example host: the width in
    use is 25 and the number of lines 5/2. *)
Definition grid25 : PixiJSGrid :=
  mkPixiJSGrid (new_surface example_hostLine None) (VNum (Fin 10)) VNull
    (VNum (Fin 25)) true (VNum (Fin 25)) true.


(** The width that [_correctWidth] assigns for the requested width [a]:
    [Math.ceil(Math.sqrt(a)) ** 2]. *)
Definition corrected_width (a : number) : number :=
  number_sq (Math_ceil (Math_sqrt a)).

(** One operation on an object, after its construction: an assignment to
    [cellSize], an action of the host on the surface, [clearGrid] or
    [drawGrid]. *)
Inductive step : PixiJSGrid -> PixiJSGrid -> Prop :=
| step_set_cellSize (v : value) (this this' : PixiJSGrid) :
    set_cellSize v this = Some this' -> step this this'
| step_surface (f : Graphics.t -> Graphics.t) (this : PixiJSGrid) :
    step this (on_super f this)
| step_clearGrid (b : option bool) (this : PixiJSGrid) :
    step this (snd (clearGrid b this))
| step_drawGrid (fuel : nat) (this this' : PixiJSGrid) (r : result) :
    drawGrid fuel this = Some (r, this') -> step this this'.

(** Any number of operations, one after the other. *)
Inductive evolves : PixiJSGrid -> PixiJSGrid -> Prop :=
| evolves_refl (this : PixiJSGrid) : evolves this this
| evolves_step (a b c : PixiJSGrid) : evolves a b -> step b c -> evolves a c.

(** A point of the square from 0 to [cw] on both axes. *)
Definition in_square (cw : Q) (p : Point.t) : Prop :=
  exists a b : Q,
    p = Point.mk (Fin a) (Fin b) /\ (0 <= a /\ a <= cw) /\ (0 <= b /\ b <= cw).

(** Equality of two numbers of the model, as terms. *)
Definition number_eqb (a b : number) : bool :=
  match a, b with
  | Fin p, Fin q => (Qnum p =? Qnum q)%Z && (Qden p =? Qden q)%positive
  | PInf, PInf | NInf, NInf | NaN, NaN => true
  | _, _ => false
  end.

(** A test holds of [count] integers in a row, from [first] on. *)
Fixpoint all_from (f : Z -> bool) (first : Z) (count : nat) : bool :=
  match count with
  | O => true
  | S count => f first && all_from f (first + 1) count
  end.

(** ** Arithmetic of the model *)

Lemma Qred_inject_Z (z : Z) : Qred (inject_Z z) = inject_Z z.
Proof.
  apply Qred_identity. simpl. apply Z.gcd_1_r.
Qed.

Lemma fin_inject_Z (z : Z) : fin (inject_Z z) = Fin (inject_Z z).
Proof.
  unfold fin. now rewrite Qred_inject_Z.
Qed.

Lemma fin_eq (p q : Q) : p == q -> fin p = fin q.
Proof.
  intros H. unfold fin. f_equal. now apply Qred_complete.
Qed.

Lemma number_add_inject_Z (a b : Z) :
  number_add (Fin (inject_Z a)) (Fin (inject_Z b)) = Fin (inject_Z (a + b)).
Proof.
  simpl. rewrite <- fin_inject_Z. apply fin_eq.
  now rewrite inject_Z_plus.
Qed.

Lemma number_sq_inject_Z (n : Z) :
  number_sq (Fin (inject_Z n)) = Fin (inject_Z (n * n)).
Proof.
  unfold number_sq. simpl. rewrite <- fin_inject_Z. apply fin_eq.
  now rewrite inject_Z_mult.
Qed.

(** A root found by [Qsqrt_exact] is the non-negative square root. *)
Lemma Qsqrt_exact_sound (q r : Q) :
  Qsqrt_exact q = Some r -> r * r == q /\ 0 <= r.
Proof.
  unfold Qsqrt_exact.
  destruct (_ && _)%bool eqn:E; [|discriminate].
  intros [= <-].
  apply andb_true_iff in E. destruct E as [En Ed].
  apply Z.eqb_eq in En. apply Z.eqb_eq in Ed.
  assert (Hd : (0 < Z.sqrt (Zpos (Qden (Qred q))))%Z).
  { apply Z.sqrt_pos. reflexivity. }
  split.
  - apply Qeq_trans with (Qred q); [|apply Qred_correct].
    destruct (Qred q) as [n d]. cbn [Qnum Qden] in *.
    unfold Qeq, Qmult. cbn [Qnum Qden].
    change (Z.sqrt (Z.pos d)) with (Z.pos (Pos.sqrt d)) in Ed.
    change (Z.to_pos (Z.sqrt (Z.pos d))) with (Pos.sqrt d).
    rewrite Pos2Z.inj_mul, Ed, En. reflexivity.
  - unfold Qle. simpl. rewrite Z.mul_1_r. apply Z.sqrt_nonneg.
Qed.

(** A rational that has a rational root has its root found: [Math_sqrt]
    gives a surd for irrational roots alone. *)
Lemma Qsqrt_exact_complete (q r : Q) :
  r * r == q -> exists r' : Q, Qsqrt_exact q = Some r'.
Proof.
  intros Hr.
  pose proof (Qred_identity2 (Qred r) (Qred_involutive r)) as Hg.
  destruct (Qred r) as [c d] eqn:Er. cbn [Qnum Qden] in Hg.
  assert (Hs : Qred q = (c * c # d * d)).
  { rewrite <- (Qred_identity (c * c # d * d)).
    - apply Qred_complete. rewrite <- Hr.
      rewrite <- (Qred_correct r), Er. reflexivity.
    - cbn [Qnum Qden]. rewrite Pos2Z.inj_mul.
      apply Z.coprime_mul_l; apply Z.coprime_mul_r; exact Hg. }
  unfold Qsqrt_exact. rewrite Hs. cbn [Qnum Qden].
  rewrite <- (Z.abs_square c), Z.sqrt_square by apply Z.abs_nonneg.
  rewrite Pos2Z.inj_mul, Z.sqrt_square by lia.
  rewrite !Z.eqb_refl. cbn [andb]. eauto.
Qed.

(** The root of the square of a natural number is found, and is that
    number. *)
Lemma Qsqrt_exact_square (n : Z) :
  (0 <= n)%Z -> Qsqrt_exact (inject_Z (n * n)) = Some (inject_Z n).
Proof.
  intros Hn. unfold Qsqrt_exact. rewrite Qred_inject_Z. simpl.
  rewrite Z.sqrt_square by assumption.
  now rewrite Z.eqb_refl.
Qed.

Lemma Math_sqrt_square (n : Z) :
  (0 <= n)%Z -> Math_sqrt (Fin (inject_Z (n * n))) = Exact (Fin (inject_Z n)).
Proof.
  intros Hn. unfold Math_sqrt.
  rewrite Qsqrt_exact_square by assumption.
  destruct (Qle_bool 0 (inject_Z (n * n))) eqn:E; [reflexivity|].
  exfalso. apply not_true_iff_false in E. apply E.
  apply Qle_bool_iff. unfold Qle. simpl. nia.
Qed.

Lemma Qle_inject_Z (a b : Z) : inject_Z a <= inject_Z b <-> (a <= b)%Z.
Proof.
  unfold Qle. simpl. lia.
Qed.

Lemma Qlt_inject_Z (a b : Z) : inject_Z a < inject_Z b <-> (a < b)%Z.
Proof.
  unfold Qlt. simpl. lia.
Qed.

(** The ceiling of the square root of a positive rational, as the source
    computes it, is the positive integer [n] with [(n - 1)^2 < q <= n^2]. *)
Lemma ceil_sqrt_spec (q : Q) :
  0 < q ->
  exists n : Z,
    Math_ceil (Math_sqrt (Fin q)) = Fin (inject_Z n) /\
    (0 < n)%Z /\
    inject_Z ((n - 1) * (n - 1)) < q /\
    q <= inject_Z (n * n).
Proof.
  intros Hq. unfold Math_sqrt.
  destruct (Qle_bool 0 q) eqn:E.
  2:{ exfalso. apply not_true_iff_false in E. apply E.
      apply Qle_bool_iff. lra. }
  destruct (Qsqrt_exact q) as [r|] eqn:Er.
  - apply Qsqrt_exact_sound in Er. destruct Er as [Hr Hr0].
    exists (Qceiling r). simpl.
    pose proof (Qle_ceiling r) as Hle.
    pose proof (Qceiling_lt r) as Hlt.
    assert (Hrpos : 0 < r).
    { destruct (Qlt_le_dec 0 r) as [|Hr1]; [assumption|exfalso].
      assert (Hz : r == 0) by lra.
      rewrite Hz in Hr. lra. }
    assert (Hn : (0 < Qceiling r)%Z).
    { apply Qlt_inject_Z. change (inject_Z 0) with 0. lra. }
    repeat split; try assumption.
    + rewrite inject_Z_mult. rewrite <- Hr.
      assert (0 <= inject_Z (Qceiling r - 1)).
      { change 0 with (inject_Z 0). apply Qle_inject_Z. lia. }
      nra.
    + rewrite inject_Z_mult. rewrite <- Hr. nra.
  - exists (Z.sqrt_up (Qceiling q)). simpl.
    pose proof (Qle_ceiling q) as Hle.
    pose proof (Qceiling_lt q) as Hlt.
    assert (Hc : (0 < Qceiling q)%Z).
    { apply Qlt_inject_Z. change (inject_Z 0) with 0. lra. }
    pose proof (Z.sqrt_up_spec _ Hc) as [Hlo Hhi].
    pose proof (proj2 (Z.sqrt_up_pos _) Hc) as Hpos.
    unfold Z.pred in Hlo.
    split; [reflexivity|]. split; [assumption|]. split.
    + apply Qle_lt_trans with (inject_Z (Qceiling q - 1)); [|assumption].
      apply Qle_inject_Z. lia.
    + apply Qle_trans with (inject_Z (Qceiling q)); [assumption|].
      apply Qle_inject_Z. lia.
Qed.

(** The ceiling of the square root of a non-negative rational is a natural
    number. *)
Lemma ceil_sqrt_nonneg (q : Q) :
  0 <= q ->
  exists n : Z,
    (0 <= n)%Z /\ Math_ceil (Math_sqrt (Fin q)) = Fin (inject_Z n).
Proof.
  intros Hq. unfold Math_sqrt.
  apply Qle_bool_iff in Hq. rewrite Hq.
  destruct (Qsqrt_exact q) as [r|] eqn:Er.
  - apply Qsqrt_exact_sound in Er. destruct Er as [_ Hr0].
    exists (Qceiling r). split; [|reflexivity].
    apply Qle_inject_Z. change (inject_Z 0) with 0.
    pose proof (Qle_ceiling r). lra.
  - exists (Z.sqrt_up (Qceiling q)). split; [|reflexivity].
    apply Z.sqrt_up_nonneg.
Qed.

(** *** Integers

    On integers the arithmetic of the model is that of [Z]. *)

Lemma number_sub_inject_Z (a b : Z) :
  number_sub (Fin (inject_Z a)) (Fin (inject_Z b)) = Fin (inject_Z (a - b)).
Proof.
  cbn [number_sub]. rewrite <- fin_inject_Z. apply fin_eq.
  unfold Z.sub. now rewrite inject_Z_plus, inject_Z_opp.
Qed.

Lemma number_mul_inject_Z (a b : Z) :
  number_mul (Fin (inject_Z a)) (Fin (inject_Z b)) = Fin (inject_Z (a * b)).
Proof.
  cbn [number_mul]. rewrite <- fin_inject_Z. apply fin_eq.
  now rewrite inject_Z_mult.
Qed.

Lemma inject_Z_nonzero (c : Z) : (c <> 0)%Z -> ~ inject_Z c == 0.
Proof.
  intros Hc H. unfold Qeq in H. cbn [Qnum Qden inject_Z] in H. lia.
Qed.

(** The quotient of a multiple of [c] by [c]. *)
Lemma number_div_inject_Z (k c : Z) :
  (c <> 0)%Z ->
  number_div (Fin (inject_Z (k * c))) (Fin (inject_Z c)) = Fin (inject_Z k).
Proof.
  intros Hc. cbn [number_div].
  pose proof (inject_Z_nonzero c Hc) as Hne.
  destruct (Qeq_bool (inject_Z c) 0) eqn:E.
  - apply Qeq_bool_iff in E. contradiction.
  - rewrite <- fin_inject_Z. apply fin_eq.
    rewrite inject_Z_mult. now field.
Qed.

(** The quotient of two integers, rounded down, is their integer quotient. *)
Lemma Qfloor_div_inject_Z (a c : Z) :
  (0 < c)%Z -> Qfloor (inject_Z a / inject_Z c) = (a / c)%Z.
Proof.
  intros Hc. destruct c as [|p|p]; try lia.
  rewrite <- (Qfloor_comp _ _ (Qmake_Qdiv a p)). reflexivity.
Qed.

Lemma Math_floor_div_inject_Z (a c : Z) :
  (0 < c)%Z ->
  Math_floor (number_div (Fin (inject_Z a)) (Fin (inject_Z c))) =
  Fin (inject_Z (a / c)).
Proof.
  intros Hc. cbn [number_div].
  pose proof (inject_Z_nonzero c ltac:(lia)) as Hne.
  destruct (Qeq_bool (inject_Z c) 0) eqn:E.
  - apply Qeq_bool_iff in E. contradiction.
  - unfold fin, Math_floor. do 2 f_equal.
    rewrite <- Qfloor_div_inject_Z by assumption.
    apply Qfloor_comp, Qred_correct.
Qed.

Lemma number_eqb_eq (a b : number) : number_eqb a b = true -> a = b.
Proof.
  destruct a as [[n d]| | |], b as [[n' d']| | |]; cbn [number_eqb Qnum Qden];
    try discriminate; try reflexivity.
  intros H. apply andb_true_iff in H. destruct H as [Hn Hd].
  apply Z.eqb_eq in Hn. apply Pos.eqb_eq in Hd. now subst.
Qed.

(** ** The width in use *)

Lemma sq_ceil_sqrt_cases (a : number) :
  number_sq (Math_ceil (Math_sqrt a)) = NaN \/
  number_sq (Math_ceil (Math_sqrt a)) = PInf \/
  exists n : Z,
    (0 <= n)%Z /\ number_sq (Math_ceil (Math_sqrt a)) = Fin (inject_Z (n * n)).
Proof.
  destruct a as [q| | |]; try (now left); try (now right; left).
  destruct (Qlt_le_dec q 0) as [Hneg|Hpos].
  - left. unfold Math_sqrt.
    destruct (Qle_bool 0 q) eqn:E; [|reflexivity].
    apply Qle_bool_iff in E. lra.
  - right; right.
    destruct (ceil_sqrt_nonneg q Hpos) as (n & Hn & ->).
    exists n. split; [assumption|]. apply number_sq_inject_Z.
Qed.

Lemma _correctWidth_width (this : PixiJSGrid) :
  _correctedWidth (_correctWidth this) =
  VNum (number_sq (Math_ceil (Math_sqrt (ToNumber (_gridWidth this))))).
Proof.
  unfold _correctWidth. destruct (_doCorrectWidth this); reflexivity.
Qed.

Lemma _correctWidth_square (this : PixiJSGrid) :
  square_width (_correctWidth this).
Proof.
  unfold square_width. rewrite _correctWidth_width.
  destruct (sq_ceil_sqrt_cases (ToNumber (_gridWidth this)))
    as [H|[H|(n & Hn & H)]]; rewrite H; eauto.
Qed.

(** The root of such a width is a number; the setter never meets a surd. *)
Lemma square_width_root (this : PixiJSGrid) :
  square_width this ->
  exists r : number,
    Math_sqrt (ToNumber (_correctedWidth this)) = Exact r.
Proof.
  intros [H|[H|(n & Hn & H)]]; rewrite H; simpl ToNumber.
  - now exists NaN.
  - now exists PInf.
  - exists (Fin (inject_Z n)). now apply Math_sqrt_square.
Qed.

(** The setter, on a falsy and on a truthy value. *)
Lemma set_cellSize_falsy (v : value) (this : PixiJSGrid) (r : number) :
  ToBoolean v = false ->
  Math_sqrt (ToNumber (_correctedWidth this)) = Exact r ->
  set_cellSize v this = Some (with_cellSize (VNum r) this).
Proof.
  intros Hv Hr. unfold set_cellSize.
  replace (ToBoolean (default_value VNull v)) with false
    by (destruct v; [reflexivity|reflexivity|now rewrite <- Hv]).
  now rewrite Hr.
Qed.

Lemma set_cellSize_truthy (v : value) (this : PixiJSGrid) :
  ToBoolean v = true ->
  set_cellSize v this = Some (with_cellSize v this).
Proof.
  intros Hv. unfold set_cellSize.
  destruct v as [| |n]; try discriminate.
  simpl default_value. now rewrite Hv.
Qed.

Lemma set_cellSize_total (v : value) (this : PixiJSGrid) :
  square_width this ->
  exists c : value, set_cellSize v this = Some (with_cellSize c this).
Proof.
  intros Hsq. destruct (ToBoolean v) eqn:Hv.
  - exists v. now apply set_cellSize_truthy.
  - destruct (square_width_root this Hsq) as [r Hr].
    exists (VNum r). now apply set_cellSize_falsy.
Qed.

(** What the setter changes is the cell size alone. *)
Lemma set_cellSize_frame (v : value) (this this' : PixiJSGrid) :
  set_cellSize v this = Some this' ->
  this' = with_cellSize (_cellSize this') this.
Proof.
  unfold set_cellSize.
  destruct (ToBoolean _).
  - now intros [= <-].
  - destruct (root_number _); [|discriminate]. now intros [= <-].
Qed.

(** ** Construction *)

Lemma new_PixiJSGrid_unfold (hostLine : LineStyle.t) (width cs : value)
    (lineConfig : option LineStyle.t) (dcw db : option bool) :
  new_PixiJSGrid hostLine width cs lineConfig dcw db =
  match
    set_cellSize (default_value VNull cs)
      (before_set_cellSize hostLine width dcw db)
  with
  | Some this =>
      Some (with_super
              (Graphics.set_interactive true
                 (Graphics.lineStyle
                    (LineStyle.width (applied_line lineConfig))
                    (LineStyle.color (applied_line lineConfig))
                    (LineStyle.alpha (applied_line lineConfig))
                    (LineStyle.alignment (applied_line lineConfig))
                    (LineStyle.native (applied_line lineConfig))
                    (super this)))
              this)
  | None => None
  end.
Proof.
  unfold new_PixiJSGrid, before_set_cellSize. cbv zeta.
  destruct (set_cellSize _ _); reflexivity.
Qed.

(** The constructor returns, and the object it returns is the one on which it
    called the setter, with the cell size and the surface set. *)
Lemma new_PixiJSGrid_total (hostLine : LineStyle.t) (width cs : value)
    (lineConfig : option LineStyle.t) (dcw db : option bool) :
  exists c : value,
    set_cellSize cs (before_set_cellSize hostLine width dcw db) =
      Some (with_cellSize c (before_set_cellSize hostLine width dcw db)) /\
    new_PixiJSGrid hostLine width cs lineConfig dcw db =
      Some (with_super (new_surface hostLine lineConfig)
              (with_cellSize c (before_set_cellSize hostLine width dcw db))).
Proof.
  destruct (set_cellSize_total cs (before_set_cellSize hostLine width dcw db))
    as [c Hc].
  { apply (_correctWidth_square
             (mkPixiJSGrid (Graphics.create hostLine) VNull VNull width
                (default_bool true dcw) VNull false)). }
  exists c. split; [assumption|].
  rewrite new_PixiJSGrid_unfold.
  replace (set_cellSize (default_value VNull cs)
             (before_set_cellSize hostLine width dcw db))
    with (set_cellSize cs (before_set_cellSize hostLine width dcw db))
    by (unfold set_cellSize; now destruct cs).
  rewrite Hc. unfold new_surface, applied_line, before_set_cellSize,
    _correctWidth.
  cbn [_doCorrectWidth].
  destruct (default_bool true dcw), lineConfig as [[]|]; reflexivity.
Qed.

(** C1, as the code has it: the width in use does not depend on
    [doCorrectWidth].  Whatever the flag, [_correctWidth] ends with the
    assignment of [Math.ceil(Math.sqrt(width)) ** 2]; with the flag false and
    the requested width 10, the width in use is 16 and not 10. *)
Theorem correctWidth_overrides_uncorrected_width :
  (forall this : PixiJSGrid,
     _correctedWidth (_correctWidth this) =
     VNum (number_sq (Math_ceil (Math_sqrt (ToNumber (_gridWidth this)))))) /\
  (forall (hostLine : LineStyle.t) (width cs : value)
          (lineConfig : option LineStyle.t) (db : option bool),
     exists this : PixiJSGrid,
       new_PixiJSGrid hostLine width cs lineConfig (Some false) db =
         Some this /\
       _gridWidth this = width /\
       _doCorrectWidth this = false /\
       _correctedWidth this =
       VNum (number_sq (Math_ceil (Math_sqrt (ToNumber width))))) /\
  (exists this : PixiJSGrid,
     new_PixiJSGrid example_hostLine (VNum (Fin 10)) VUndefined None
       (Some false) None = Some this /\
     _gridWidth this = VNum (Fin 10) /\
     _correctedWidth this = VNum (Fin 16) /\
     _correctedWidth this <> _gridWidth this).
Proof.
  split; [exact _correctWidth_width|]. split.
  - intros hostLine width cs lineConfig db.
    destruct (new_PixiJSGrid_total hostLine width cs lineConfig (Some false) db)
      as (c & _ & Hnew).
    eexists. split; [exact Hnew|].
    repeat split.
  - eexists. split; [vm_compute; reflexivity|].
    repeat split. discriminate.
Qed.




(** ** Drawing *)

Lemma same_grid_refl (this : PixiJSGrid) : same_grid this this.
Proof.
  split; [now destruct this|]. repeat split.
Qed.

Lemma same_grid_trans (a b c : PixiJSGrid) :
  same_grid a b -> same_grid b c -> same_grid a c.
Proof.
  intros [Hab Sab] [Hbc Sbc]. split.
  - rewrite <- Hab, <- Hbc. reflexivity.
  - unfold same_setup in *. intuition congruence.
Qed.

(** Such objects have the same cell size, width, bounds and cells. *)
Lemma same_grid_fields (this this' : PixiJSGrid) :
  same_grid this this' ->
  _cellSize this' = _cellSize this /\
  _correctedWidth this' = _correctedWidth this /\
  _drawBoundaries this' = _drawBoundaries this /\
  Graphics.line (super this') = Graphics.line (super this) /\
  bounds this' = bounds this /\
  (forall x y : number,
     getCellCoordinates x y this' = getCellCoordinates x y this).
Proof.
  intros [Hown (Hx & Hy & Hl & _)].
  assert (Hcs : _cellSize this' = _cellSize this)
    by (rewrite <- Hown; reflexivity).
  assert (Hcw : _correctedWidth this' = _correctedWidth this)
    by (rewrite <- Hown; reflexivity).
  assert (Hdb : _drawBoundaries this' = _drawBoundaries this)
    by (rewrite <- Hown; reflexivity).
  assert (Hb : bounds this' = bounds this)
    by (unfold bounds; now rewrite Hx, Hy, Hcw).
  repeat split; try assumption.
  intros x y. unfold getCellCoordinates, cellSize. now rewrite Hb, Hcs.
Qed.

Lemma draw_lines_at_same (i : number) (this : PixiJSGrid) :
  same_grid this (draw_lines_at i this).
Proof.
  split; [now destruct this|]. repeat split.
Qed.

Lemma drawGrid_loop_step (fuel : nat) (i : number) (this : PixiJSGrid) :
  drawGrid_loop (S fuel) i this =
  if number_leb i
       (number_sub (amtLines this)
          (if _drawBoundaries this then Fin 0 else Fin 1))
  then drawGrid_loop fuel (number_add i (Fin 1)) (draw_lines_at i this)
  else Some this.
Proof.
  reflexivity.
Qed.

Lemma drawGrid_loop_same (fuel : nat) :
  forall (i : number) (this this' : PixiJSGrid),
    drawGrid_loop fuel i this = Some this' -> same_grid this this'.
Proof.
  induction fuel as [|fuel IH]; intros i this this' H; [discriminate|].
  rewrite drawGrid_loop_step in H.
  destruct (number_leb _ _).
  - apply IH in H.
    eapply same_grid_trans; [apply draw_lines_at_same|exact H].
  - injection H as <-. apply same_grid_refl.
Qed.

Lemma clearGrid_retain (this : PixiJSGrid) :
  clearGrid (Some true) this = (This, cleared this) /\
  clearGrid None this = (This, cleared this).
Proof.
  unfold clearGrid, cleared, on_super. cbn.
  destruct (Graphics.line (super this)); split; reflexivity.
Qed.

Lemma clearGrid_discard (this : PixiJSGrid) :
  clearGrid (Some false) this = (Undefined, on_super Graphics.clear this).
Proof.
  reflexivity.
Qed.

Lemma cleared_same_grid (this this' : PixiJSGrid) :
  same_grid this this' -> cleared this' = cleared this.
Proof.
  intros [H (Hx & Hy & Hl & Hd & Hi)].
  unfold cleared. rewrite Hx, Hy, Hl, Hd, Hi.
  rewrite <- H. reflexivity.
Qed.

Lemma cleared_same (this : PixiJSGrid) : same_grid this (cleared this).
Proof.
  split; [now destruct this|]. repeat split.
Qed.

Lemma drawGrid_unfold (fuel : nat) (this : PixiJSGrid) :
  drawGrid fuel this =
  match
    drawGrid_loop fuel (if _drawBoundaries this then Fin 0 else Fin 1)
      (cleared this)
  with
  | Some this' => Some (This, on_super Graphics.endFill this')
  | None => None
  end.
Proof.
  unfold drawGrid. rewrite (proj1 (clearGrid_retain this)). reflexivity.
Qed.

Lemma drawGrid_same (fuel : nat) (this this' : PixiJSGrid) (r : result) :
  drawGrid fuel this = Some (r, this') -> r = This /\ same_grid this this'.
Proof.
  rewrite drawGrid_unfold.
  destruct (drawGrid_loop _ _ _) as [g|] eqn:E; [|discriminate].
  intros [= <- <-]. split; [reflexivity|].
  apply drawGrid_loop_same in E.
  eapply same_grid_trans; [apply cleared_same|].
  eapply same_grid_trans; [exact E|].
  split; [now destruct g|]. repeat split.
Qed.

(** ** The objects a program can hold *)

Lemma reachable_square_width (this : PixiJSGrid) :
  reachable this -> square_width this.
Proof.
  induction 1 as [hostLine width cs lc dcw db this Hnew
                 |v this this' _ IH Hset
                 |f this _ IH
                 |b this _ IH
                 |fuel this this' r _ IH Hdraw].
  - destruct (new_PixiJSGrid_total hostLine width cs lc dcw db)
      as (c & _ & Hnew').
    rewrite Hnew' in Hnew. injection Hnew as <-.
    apply (_correctWidth_square
             (mkPixiJSGrid (Graphics.create hostLine) VNull VNull width
                (default_bool true dcw) VNull false)).
  - apply set_cellSize_frame in Hset. rewrite Hset. exact IH.
  - exact IH.
  - destruct b as [[|]|]; exact IH.
  - apply drawGrid_same in Hdraw. destruct Hdraw as [_ [Heq _]].
    unfold square_width in *. rewrite <- Heq in IH. exact IH.
Qed.

Lemma grid16_new :
  new_PixiJSGrid example_hostLine (VNum (Fin 16)) VUndefined None None None =
  Some grid16.
Proof.
  vm_compute. reflexivity.
Qed.

Lemma grid16_reachable : reachable grid16.
Proof.
  exact (reach_new _ _ _ _ _ _ _ grid16_new).
Defined.

(** A root that [Math_sqrt] gives as a finite number is the non-negative
    square root. *)
Lemma Math_sqrt_sound (c q : Q) :
  Math_sqrt (Fin c) = Exact (Fin q) -> q * q == c /\ 0 <= q.
Proof.
  unfold Math_sqrt.
  destruct (Qle_bool 0 c); [|discriminate].
  destruct (Qsqrt_exact c) as [r|] eqn:E; [|discriminate].
  intros [= <-]. now apply Qsqrt_exact_sound.
Qed.



(** C10: the assignment of any value to [cellSize] returns, and changes the
    stored cell size alone: the width in use, the requested width, the flags,
    the surface with its position and line style, and the bounds are what
    they were. *)
Theorem set_cellSize_changes_cellSize_only (this : PixiJSGrid) (v : value) :
  reachable this ->
  exists this' : PixiJSGrid,
    set_cellSize v this = Some this' /\
    this' = with_cellSize (cellSize this') this /\
    _correctedWidth this' = _correctedWidth this /\
    gridWidth this' = gridWidth this /\
    _gridWidth this' = _gridWidth this /\
    _doCorrectWidth this' = _doCorrectWidth this /\
    _drawBoundaries this' = _drawBoundaries this /\
    _amtLines this' = _amtLines this /\
    super this' = super this /\
    Graphics.x (super this') = Graphics.x (super this) /\
    Graphics.y (super this') = Graphics.y (super this) /\
    Graphics.line (super this') = Graphics.line (super this) /\
    bounds this' = bounds this.
Proof.
  intros Hreach.
  destruct (set_cellSize_total v this (reachable_square_width this Hreach))
    as [c Hc].
  exists (with_cellSize c this). split; [assumption|].
  repeat split.
Qed.

Lemma set_cellSize_changes_cellSize_only_witness :
  exists this' : PixiJSGrid,
    set_cellSize (VNum (Fin 2)) grid16 = Some this' /\
    this' = with_cellSize (cellSize this') grid16 /\
    _correctedWidth this' = _correctedWidth grid16 /\
    gridWidth this' = gridWidth grid16 /\
    _gridWidth this' = _gridWidth grid16 /\
    _doCorrectWidth this' = _doCorrectWidth grid16 /\
    _drawBoundaries this' = _drawBoundaries grid16 /\
    _amtLines this' = _amtLines grid16 /\
    super this' = super grid16 /\
    Graphics.x (super this') = Graphics.x (super grid16) /\
    Graphics.y (super this') = Graphics.y (super grid16) /\
    Graphics.line (super this') = Graphics.line (super grid16) /\
    bounds this' = bounds grid16.
Proof.
  apply (set_cellSize_changes_cellSize_only grid16 (VNum (Fin 2))
           grid16_reachable).
Defined.

(** C9, refuted as stated: the setter stores a negative number as it is.
    After [new PixiJSGrid(16)], whose cell size is 4, the assignment
    [cellSize = -3] leaves the cell size at -3. *)
Lemma cellSize_negative_after_assignment :
  reachable grid16 /\
  cellSize_positive grid16 /\
  exists this' : PixiJSGrid,
    set_cellSize (VNum (Fin (-3))) grid16 = Some this' /\
    reachable this' /\
    cellSize this' = VNum (Fin (-3)) /\
    ~ cellSize_positive this'.
Proof.
  split; [exact grid16_reachable|]. split; [reflexivity|].
  exists (with_cellSize (VNum (Fin (-3))) grid16).
  split; [reflexivity|]. split.
  - apply (reach_set_cellSize (VNum (Fin (-3))) grid16);
      [exact grid16_reachable|reflexivity].
  - split; [reflexivity|]. unfold cellSize_positive. vm_compute. discriminate.
Qed.

(** C9, as the code has it: on an object whose width in use is finite and
    positive, the assignment of a falsy value or of a number greater than zero
    leaves the cell size greater than zero, and so does the constructor, given
    a finite positive width; clearing, drawing and the host's actions on the
    surface do not touch the cell size.  The setter validates nothing: a
    negative number is stored as it is. *)
Theorem cellSize_positive_preserved (this : PixiJSGrid) (v : value) (c : Q) :
  reachable this ->
  _correctedWidth this = VNum (Fin c) ->
  0 < c ->
  ToBoolean v = false \/ number_ltb (Fin 0) (ToNumber v) = true ->
  (exists this' : PixiJSGrid,
     set_cellSize v this = Some this' /\ cellSize_positive this') /\
  (forall b : option bool,
     cellSize (snd (clearGrid b this)) = cellSize this) /\
  (forall (fuel : nat) (r : result) (this' : PixiJSGrid),
     drawGrid fuel this = Some (r, this') -> cellSize this' = cellSize this) /\
  (forall f : Graphics.t -> Graphics.t,
     cellSize (on_super f this) = cellSize this) /\
  (forall q : Q,
     q < 0 ->
     set_cellSize (VNum (Fin q)) this =
     Some (with_cellSize (VNum (Fin q)) this)) /\
  (forall (hostLine : LineStyle.t) (w : Q) (lineConfig : option LineStyle.t)
          (dcw db : option bool),
     0 < w ->
     exists new : PixiJSGrid,
       new_PixiJSGrid hostLine (VNum (Fin w)) v lineConfig dcw db = Some new /\
       cellSize_positive new).
Proof.
  intros Hreach Hc Hpos Hv.
  assert (Hset : forall g : PixiJSGrid,
            (exists n : Z,
               (0 < n)%Z /\
               _correctedWidth g = VNum (Fin (inject_Z (n * n)))) ->
            exists c' : value,
              set_cellSize v g = Some (with_cellSize c' g) /\
              number_ltb (Fin 0) (ToNumber c') = true).
  { intros g (n & Hn & Hg).
    destruct (ToBoolean v) eqn:Hb.
    - exists v. split; [now apply set_cellSize_truthy|].
      destruct Hv as [Hv|Hv]; [discriminate|assumption].
    - exists (VNum (Fin (inject_Z n))). split.
      + apply set_cellSize_falsy; [assumption|].
        rewrite Hg. simpl ToNumber. apply Math_sqrt_square. lia.
      + simpl ToNumber. unfold number_ltb, number_leb.
        apply andb_true_iff. split.
        * apply Qle_bool_iff. change 0 with (inject_Z 0).
          apply Qle_inject_Z. lia.
        * apply negb_true_iff. apply not_true_iff_false.
          intros H. apply Qle_bool_iff in H.
          change 0 with (inject_Z 0) in H.
          apply (proj1 (Qle_inject_Z _ _)) in H. lia. }
  split; [|split; [|split; [|split; [|split]]]].
  - destruct (reachable_square_width this Hreach) as [H|[H|(n & Hn & H)]];
      rewrite Hc in H; try discriminate.
    injection H as Hcn.
    destruct (Hset this) as (c' & Hs & Hp).
    { exists n. split; [|now rewrite Hc, Hcn].
      assert (0 < n * n)%Z by (apply Qlt_inject_Z; now rewrite <- Hcn).
      nia. }
    exists (with_cellSize c' this). split; [assumption|exact Hp].
  - intros [[|]|]; reflexivity.
  - intros fuel r this' Hdraw.
    apply drawGrid_same in Hdraw. destruct Hdraw as [_ [Heq _]].
    rewrite <- Heq. reflexivity.
  - reflexivity.
  - intros q Hq. apply set_cellSize_truthy. simpl.
    apply negb_true_iff. apply not_true_iff_false.
    intros H. apply Qeq_bool_iff in H. lra.
  - intros hostLine w lineConfig dcw db Hw.
    destruct (new_PixiJSGrid_total hostLine (VNum (Fin w)) v lineConfig dcw db)
      as (c0 & Hc0 & Hnew).
    destruct (ceil_sqrt_spec w Hw) as (n & Hceil & Hn & _).
    destruct (Hset (before_set_cellSize hostLine (VNum (Fin w)) dcw db))
      as (c' & Hs & Hp).
    { exists n. split; [assumption|].
      unfold before_set_cellSize. cbn [with_drawBoundaries _correctedWidth].
      rewrite _correctWidth_width. cbn [_gridWidth ToNumber].
      now rewrite Hceil, number_sq_inject_Z. }
    rewrite Hc0 in Hs. injection Hs as ->.
    eexists. split; [exact Hnew|exact Hp].
Qed.

Lemma cellSize_positive_preserved_witness :
  exists this' : PixiJSGrid,
    set_cellSize (VNum (Fin 2)) grid16 = Some this' /\
    cellSize_positive this'.
Proof.
  apply (cellSize_positive_preserved grid16 (VNum (Fin 2)) 16
           grid16_reachable); [reflexivity|reflexivity|right; reflexivity].
Defined.

(** ** Cells *)

Lemma Qfloor_unique (z : Q) (k : Z) :
  inject_Z k <= z -> z < inject_Z (k + 1) -> Qfloor z = k.
Proof.
  intros Hlo Hhi.
  pose proof (Qfloor_le z) as Hle.
  pose proof (Qlt_floor z) as Hlt.
  assert (H1 : (Qfloor z < k + 1)%Z) by (apply Qlt_inject_Z; lra).
  assert (H2 : (k < Qfloor z + 1)%Z) by (apply Qlt_inject_Z; lra).
  lia.
Qed.

(** The index of the cell that holds a finite coordinate [x], on a grid whose
    origin [o] and cell size [cs] are finite, and the cell size not zero. *)
Lemma cell_index_finite (x o cs : Q) :
  ~ cs == 0 ->
  Math_floor (number_div (number_sub (Fin x) (Fin o)) (Fin cs)) =
  Fin (inject_Z (Qfloor ((x - o) / cs))).
Proof.
  intros Hcs. unfold number_sub, number_div, fin.
  destruct (Qeq_bool cs 0) eqn:E.
  - apply Qeq_bool_iff in E. contradiction.
  - unfold Math_floor. do 2 f_equal. apply Qfloor_comp.
    rewrite !Qred_correct. reflexivity.
Qed.

(** C3, refuted as stated: a coordinate less than [bounds.x1 + cellSize] need
    not map to the cell index 0.  On [new PixiJSGrid(16)], whose origin is 0
    and whose cell size is 4, the coordinate -1 is less than 4 and maps to the
    index -1. *)
Lemma getCellCoordinates_left_of_origin :
  number_ltb (Fin (-1))
    (number_add (Bounds.x1 (bounds grid16)) (ToNumber (cellSize grid16))) =
    true /\
  getCellCoordinates (Fin (-1)) (Fin 0) grid16 = Point.mk (Fin (-1)) (Fin 0) /\
  Point.x (getCellCoordinates (Fin (-1)) (Fin 0) grid16) <> Fin 0.
Proof.
  repeat split. vm_compute. discriminate.
Qed.

(** The index of the cell that holds an integer coordinate [x], on a grid
    whose origin [o] and cell size [c] are integers. *)
Lemma cell_index_integers (x o c : Z) :
  (0 < c)%Z ->
  Math_floor
    (number_div (number_sub (Fin (inject_Z x)) (Fin (inject_Z o)))
       (Fin (inject_Z c))) =
  Fin (inject_Z ((x - o) / c)).
Proof.
  intros Hc. rewrite cell_index_finite.
  - do 2 f_equal. rewrite <- Qfloor_div_inject_Z by assumption.
    apply Qfloor_comp. unfold Z.sub.
    rewrite inject_Z_plus, inject_Z_opp. reflexivity.
  - apply inject_Z_nonzero. lia.
Qed.

Lemma getCellCoordinates_integers (this : PixiJSGrid) (ox oy cs x y : Z) :
  Graphics.x (super this) = Fin (inject_Z ox) ->
  Graphics.y (super this) = Fin (inject_Z oy) ->
  cellSize this = VNum (Fin (inject_Z cs)) ->
  (0 < cs)%Z ->
  getCellCoordinates (Fin (inject_Z x)) (Fin (inject_Z y)) this =
  Point.mk (Fin (inject_Z ((x - ox) / cs))) (Fin (inject_Z ((y - oy) / cs))).
Proof.
  intros Hx Hy Hcs Hpos. unfold getCellCoordinates, bounds.
  cbn [Bounds.x1 Bounds.y1]. rewrite Hx, Hy, Hcs. cbn [ToNumber].
  now rewrite !cell_index_integers by assumption.
Qed.

(** C3, as the code has it: [getCellCoordinates(x, y)] is the pair of
    [Math.floor((x - bounds.x1) / cellSize)] and
    [Math.floor((y - bounds.y1) / cellSize)], as the code computes them.  On
    a grid whose position is finite and whose cell size is finite and greater
    than zero, [(bounds.x1, bounds.y1)] maps to the cell (0, 0).  On a grid
    whose position [(ox, oy)] and cell size [cs > 0] are integers, for
    integers [x] and [y], all of them up to 2^51 in magnitude, the point
    [(x, y)] maps to the integer quotients, rounded down, of [x - ox] and
    [y - oy] by [cs]; every such [x] with
    [bounds.x1 <= x < bounds.x1 + cellSize] maps to the index 0, and
    [bounds.x1 + cellSize] maps to the index 1. *)
Theorem getCellCoordinates_cells :
  (forall (this : PixiJSGrid) (x y : number),
     getCellCoordinates x y this =
     Point.mk
       (Math_floor (number_div (number_sub x (Bounds.x1 (bounds this)))
                               (ToNumber (cellSize this))))
       (Math_floor (number_div (number_sub y (Bounds.y1 (bounds this)))
                               (ToNumber (cellSize this))))) /\
  (forall (this : PixiJSGrid) (ox oy cs : Q),
     Graphics.x (super this) = Fin ox ->
     Graphics.y (super this) = Fin oy ->
     cellSize this = VNum (Fin cs) ->
     0 < cs ->
     getCellCoordinates (Bounds.x1 (bounds this)) (Bounds.y1 (bounds this))
       this = Point.mk (Fin 0) (Fin 0)) /\
  (forall (this : PixiJSGrid) (ox oy cs : Z),
     Graphics.x (super this) = Fin (inject_Z ox) ->
     Graphics.y (super this) = Fin (inject_Z oy) ->
     cellSize this = VNum (Fin (inject_Z cs)) ->
     (Z.abs ox <= 2 ^ 51)%Z ->
     (Z.abs oy <= 2 ^ 51)%Z ->
     (0 < cs <= 2 ^ 51)%Z ->
     (forall x y : Z,
        (Z.abs x <= 2 ^ 51)%Z ->
        (Z.abs y <= 2 ^ 51)%Z ->
        getCellCoordinates (Fin (inject_Z x)) (Fin (inject_Z y)) this =
        Point.mk (Fin (inject_Z ((x - ox) / cs)))
                 (Fin (inject_Z ((y - oy) / cs)))) /\
     (forall x y : Z,
        (Z.abs x <= 2 ^ 51)%Z ->
        (Z.abs y <= 2 ^ 51)%Z ->
        (ox <= x < ox + cs)%Z ->
        Point.x (getCellCoordinates (Fin (inject_Z x)) (Fin (inject_Z y)) this) =
        Fin 0) /\
     number_add (Bounds.x1 (bounds this)) (ToNumber (cellSize this)) =
       Fin (inject_Z (ox + cs)) /\
     getCellCoordinates
       (number_add (Bounds.x1 (bounds this)) (ToNumber (cellSize this)))
       (Bounds.y1 (bounds this)) this = Point.mk (Fin 1) (Fin 0)).
Proof.
  split; [reflexivity|]. split.
  - intros this ox oy cs Hx Hy Hcs Hpos.
    assert (Hne : ~ cs == 0) by lra.
    unfold getCellCoordinates, bounds. cbn [Bounds.x1 Bounds.y1].
    rewrite Hx, Hy, Hcs. cbn [ToNumber].
    rewrite !cell_index_finite by assumption.
    assert (Hzero : forall o : Q, Qfloor ((o - o) / cs) = 0%Z).
    { intros o. apply Qfloor_unique.
      - change (inject_Z 0) with 0. apply Qle_shift_div_l; [assumption|]. lra.
      - change (inject_Z (0 + 1)) with 1.
        apply Qlt_shift_div_r; [assumption|]. lra. }
    now rewrite !Hzero.
  - intros this ox oy cs Hx Hy Hcs _ _ [Hpos _].
    pose proof (fun x y : Z =>
                  getCellCoordinates_integers this ox oy cs x y Hx Hy Hcs Hpos)
      as Hcell.
    split; [|split; [|split]].
    + intros x y _ _. apply Hcell.
    + intros x y _ _ Hin. rewrite Hcell. cbn [Point.x].
      change (Fin 0) with (Fin (inject_Z 0)). do 2 f_equal.
      apply Z.div_small. lia.
    + unfold bounds. cbn [Bounds.x1]. rewrite Hx, Hcs. cbn [ToNumber].
      apply number_add_inject_Z.
    + assert (Hsum : number_add (Bounds.x1 (bounds this))
                       (ToNumber (cellSize this)) = Fin (inject_Z (ox + cs))).
      { unfold bounds. cbn [Bounds.x1]. rewrite Hx, Hcs. cbn [ToNumber].
        apply number_add_inject_Z. }
      rewrite Hsum. unfold bounds at 1. cbn [Bounds.y1]. rewrite Hy, Hcell.
      change (Fin 1) with (Fin (inject_Z 1)).
      change (Fin 0) with (Fin (inject_Z 0)).
      do 3 f_equal.
      * replace (ox + cs - ox)%Z with cs by lia. apply Z.div_same. lia.
      * rewrite Z.sub_diag. apply Z.div_0_l. lia.
Qed.

Lemma getCellCoordinates_cells_witness :
  (forall x y : Z,
     (Z.abs x <= 2 ^ 51)%Z ->
     (Z.abs y <= 2 ^ 51)%Z ->
     getCellCoordinates (Fin (inject_Z x)) (Fin (inject_Z y)) grid16 =
     Point.mk (Fin (inject_Z ((x - 0) / 4))) (Fin (inject_Z ((y - 0) / 4)))) /\
  (forall x y : Z,
     (Z.abs x <= 2 ^ 51)%Z ->
     (Z.abs y <= 2 ^ 51)%Z ->
     (0 <= x < 0 + 4)%Z ->
     Point.x (getCellCoordinates (Fin (inject_Z x)) (Fin (inject_Z y)) grid16) =
     Fin 0) /\
  number_add (Bounds.x1 (bounds grid16)) (ToNumber (cellSize grid16)) =
    Fin (inject_Z (0 + 4)) /\
  getCellCoordinates
    (number_add (Bounds.x1 (bounds grid16)) (ToNumber (cellSize grid16)))
    (Bounds.y1 (bounds grid16)) grid16 = Point.mk (Fin 1) (Fin 0).
Proof.
  apply (proj2 (proj2 getCellCoordinates_cells) grid16 0%Z 0%Z 4%Z);
    try reflexivity; simpl; lia.
Defined.

(** What rounding does to the cells.  On [new PixiJSGrid(16)] placed at
    [x = 0.1], [bounds.x1 + cellSize] is the double 4.1, and
    [(4.1 - 0.1) / 4] is less than 1 in doubles: the coordinate maps to the
    index 0.  On a grid placed at [x = 0.7] with the cell size 3, the double
    before 3.7 is less than [bounds.x1 + cellSize], and maps to the
    index 1. *)
Lemma cell_index_rounding :
  Binary64.to_number
    (Binary64.cell_index
       (PrimFloat.add (Binary64.quotient 1 10) (Binary64.of_Z 4))
       (Binary64.quotient 1 10) (Binary64.of_Z 4)) = Fin 0 /\
  PrimFloat.ltb
    (PrimFloat.next_down (Binary64.quotient 37 10))
    (PrimFloat.add (Binary64.quotient 7 10) (Binary64.of_Z 3)) = true /\
  Binary64.to_number
    (Binary64.cell_index (PrimFloat.next_down (Binary64.quotient 37 10))
       (Binary64.quotient 7 10) (Binary64.of_Z 3)) = Fin 1.
Proof.
  repeat split; vm_compute; reflexivity.
Qed.

(** ** The pointer *)

Lemma Qle_bool_false (p q : Q) : Qle_bool p q = false <-> q < p.
Proof.
  rewrite <- not_true_iff_false, Qle_bool_iff. split; intros H; lra.
Qed.

(** C4, refuted as stated: a pointer at [(bounds.x1, bounds.y1)] need not
    call the hook, and a pointer at [(bounds.x1 - 1, bounds.y1)] can.  On
    [new PixiJSGrid(-4)] the width in use is [NaN], and so are [bounds.x2]
    and [bounds.y2]: no comparison with them holds, and a pointer at
    [(bounds.x1, bounds.y1)] does not call the hook.  On a grid of the width
    16 placed at [x = 1e16], [bounds.x1 - 1] rounds to [bounds.x1]: the
    pointer at [(bounds.x1 - 1, bounds.y1)] is within the bounds. *)
Lemma mousemove_hook_at_the_corner :
  (exists this : PixiJSGrid,
     new_PixiJSGrid example_hostLine (VNum (Fin (-4))) VUndefined None None
       None = Some this /\
     bounds this = Bounds.mk (Fin 0) (Fin 0) NaN NaN /\
     mousemove_listener this
       (InteractionEvent.mk
          (Point.mk (Bounds.x1 (bounds this)) (Bounds.y1 (bounds this))) 0) =
     []) /\
  Binary64.to_number (Binary64.of_Z (10 ^ 16)) = Fin (inject_Z (10 ^ 16)) /\
  Binary64.to_number
    (PrimFloat.sub (Binary64.of_Z (10 ^ 16)) (Binary64.of_Z 1)) =
    Fin (inject_Z (10 ^ 16)) /\
  Binary64.within_bounds
    (PrimFloat.sub (Binary64.of_Z (10 ^ 16)) (Binary64.of_Z 1))
    (Binary64.of_Z 0)
    (Binary64.of_Z (10 ^ 16)) (Binary64.of_Z 0) (Binary64.of_Z 16) = true.
Proof.
  split.
  - eexists. split; [vm_compute; reflexivity|]. split; reflexivity.
  - repeat split; vm_compute; reflexivity.
Qed.

(** C4, as the code has it: a pointer-move notification calls the hook exactly
    when the pointer lies within the bounds, both edges included, and it calls
    it once, with the notification and the cell coordinates of the pointer.
    On a grid whose [x] position is finite and at most 2^52 in magnitude, a
    pointer at [(bounds.x1 - 1, bounds.y1)] does not call the hook; on a grid
    whose position and width in use are finite, the width not negative, a
    pointer at [(bounds.x1, bounds.y1)] does. *)
Theorem mousemove_hook_iff_within_bounds :
  (forall (this : PixiJSGrid) (e : InteractionEvent.t),
     let p := InteractionEvent.global e in
     (within_bounds (bounds this) p ->
      mousemove_listener this e =
      [onMousemove e (getCellCoordinates (Point.x p) (Point.y p) this)]) /\
     (~ within_bounds (bounds this) p -> mousemove_listener this e = []) /\
     ((exists c : HookCall, In c (mousemove_listener this e)) <->
      within_bounds (bounds this) p)) /\
  (forall (this : PixiJSGrid) (ox : Q) (stamp : nat),
     Graphics.x (super this) = Fin ox ->
     - inject_Z (2 ^ 52) <= ox ->
     ox <= inject_Z (2 ^ 52) ->
     mousemove_listener this
       (InteractionEvent.mk
          (Point.mk (number_sub (Bounds.x1 (bounds this)) (Fin 1))
                    (Bounds.y1 (bounds this))) stamp) = []) /\
  (forall (this : PixiJSGrid) (ox oy cw : Q) (stamp : nat),
     Graphics.x (super this) = Fin ox ->
     Graphics.y (super this) = Fin oy ->
     _correctedWidth this = VNum (Fin cw) ->
     0 <= cw ->
     let corner :=
       InteractionEvent.mk
         (Point.mk (Bounds.x1 (bounds this)) (Bounds.y1 (bounds this)))
         stamp in
     mousemove_listener this corner =
     [onMousemove corner
        (getCellCoordinates (Bounds.x1 (bounds this))
           (Bounds.y1 (bounds this)) this)]).
Proof.
  assert (Hgen : forall (this : PixiJSGrid) (e : InteractionEvent.t),
            (within_bounds (bounds this) (InteractionEvent.global e) ->
             mousemove_listener this e =
             [onMousemove e
                (getCellCoordinates (Point.x (InteractionEvent.global e))
                   (Point.y (InteractionEvent.global e)) this)]) /\
            (~ within_bounds (bounds this) (InteractionEvent.global e) ->
             mousemove_listener this e = [])).
  { intros this e. unfold mousemove_listener, within_bounds, number_geb.
    cbv zeta.
    destruct (number_leb (Bounds.x1 (bounds this)) _) eqn:E1;
    destruct (number_leb _ (Bounds.x2 (bounds this))) eqn:E2;
    destruct (number_leb (Bounds.y1 (bounds this)) _) eqn:E3;
    destruct (number_leb _ (Bounds.y2 (bounds this))) eqn:E4;
    cbn [andb]; split; intros H; try reflexivity;
    try (exfalso; apply H; now repeat split);
    destruct H as (H1 & H2 & H3 & H4); discriminate. }
  split; [|split].
  - intros this e p. subst p.
    destruct (Hgen this e) as [Hin Hout].
    split; [exact Hin|]. split; [exact Hout|]. split.
    + intros [c Hc].
      assert (Hdec : forall a b : number,
                {number_leb a b = true} + {number_leb a b <> true})
        by (intros a b; destruct (number_leb a b); [left|right]; congruence).
      unfold within_bounds.
      destruct (Hdec (Bounds.x1 (bounds this))
                  (Point.x (InteractionEvent.global e))) as [H1|H1];
      destruct (Hdec (Point.x (InteractionEvent.global e))
                  (Bounds.x2 (bounds this))) as [H2|H2];
      destruct (Hdec (Bounds.y1 (bounds this))
                  (Point.y (InteractionEvent.global e))) as [H3|H3];
      destruct (Hdec (Point.y (InteractionEvent.global e))
                  (Bounds.y2 (bounds this))) as [H4|H4];
      try (now repeat split);
      exfalso; rewrite Hout in Hc; try (exact Hc);
      unfold within_bounds; tauto.
    + intros H. rewrite (Hin H). eexists. now left.
  - intros this ox stamp Hx _ _.
    apply (proj2 (Hgen this _)). unfold within_bounds, bounds.
    cbn [Bounds.x1 Bounds.x2 Bounds.y1 Bounds.y2 InteractionEvent.global
         Point.x Point.y].
    rewrite Hx. unfold number_sub, number_leb, fin.
    intros [H _]. apply Qle_bool_iff in H.
    rewrite Qred_correct in H. lra.
  - intros this ox oy cw stamp Hx Hy Hcw Hpos corner.
    subst corner.
    pose proof
      (proj1 (Hgen this
                (InteractionEvent.mk
                   (Point.mk (Bounds.x1 (bounds this))
                             (Bounds.y1 (bounds this))) stamp))) as H.
    cbn [InteractionEvent.global Point.x Point.y] in H. apply H. clear H.
    unfold within_bounds, bounds.
    cbn [Bounds.x1 Bounds.x2 Bounds.y1 Bounds.y2 Point.x Point.y].
    rewrite Hx, Hy, Hcw. unfold ToNumber, number_add, number_leb, fin.
    repeat split; apply Qle_bool_iff; rewrite ?Qred_correct; lra.
Qed.

Lemma mousemove_hook_iff_within_bounds_witness :
  mousemove_listener grid16
    (InteractionEvent.mk
       (Point.mk (number_sub (Bounds.x1 (bounds grid16)) (Fin 1))
                 (Bounds.y1 (bounds grid16))) 0) = [] /\
  mousemove_listener grid16
    (InteractionEvent.mk
       (Point.mk (Bounds.x1 (bounds grid16)) (Bounds.y1 (bounds grid16))) 0) =
  [onMousemove
     (InteractionEvent.mk
        (Point.mk (Bounds.x1 (bounds grid16)) (Bounds.y1 (bounds grid16))) 0)
     (getCellCoordinates (Bounds.x1 (bounds grid16))
        (Bounds.y1 (bounds grid16)) grid16)].
Proof.
  split.
  - apply (proj1 (proj2 mousemove_hook_iff_within_bounds) grid16 0 0%nat);
      [reflexivity| |]; unfold Qle; simpl; lia.
  - apply (proj2 (proj2 mousemove_hook_iff_within_bounds) grid16 0 0 16 0%nat);
      try reflexivity.
    unfold Qle; simpl; lia.
Defined.

(** ** The lines of the grid *)

Lemma indices_length (first : Z) (count : nat) :
  length (indices first count) = count.
Proof.
  unfold indices. now rewrite length_map, length_seq.
Qed.

Lemma indices_succ (first : Z) (count : nat) :
  indices first (S count) = first :: indices (first + 1) count.
Proof.
  unfold indices. cbn [seq map]. f_equal.
  - f_equal. lia.
  - rewrite <- seq_shift, map_map. apply map_ext. intros k. lia.
Qed.

Lemma grid_lines_length (style : LineStyle.t) (cs cw : number) (idx : list Z) :
  length (grid_lines style cs cw idx) = (2 * length idx)%nat.
Proof.
  induction idx as [|i idx IH]; [reflexivity|].
  cbn [grid_lines flat_map app length] in *.
  unfold grid_lines in IH. rewrite IH. lia.
Qed.

Lemma Qle_bool_floor (i : Z) (b : Q) :
  Qle_bool (inject_Z i) b = true <-> (i <= Qfloor b)%Z.
Proof.
  rewrite Qle_bool_iff. split; intros H.
  - apply Qfloor_resp_le in H. now rewrite Qfloor_Z in H.
  - apply Qle_trans with (inject_Z (Qfloor b)); [|apply Qfloor_le].
    now apply Qle_inject_Z.
Qed.

(** The loop, from the counter [first] on, with the bound [b] on the counter:
    it makes one round for each integer from [first] to the floor of [b], and
    then stops. *)
Lemma drawGrid_loop_rounds (b : Q) (count : nat) :
  forall (first : Z) (this : PixiJSGrid) (fuel : nat),
    number_sub (amtLines this)
      (if _drawBoundaries this then Fin 0 else Fin 1) = Fin b ->
    count = Z.to_nat (Qfloor b - first + 1) ->
    (count < fuel)%nat ->
    drawGrid_loop fuel (Fin (inject_Z first)) this =
    Some (draw_rounds (indices first count) this).
Proof.
  induction count as [|count IH]; intros first this fuel Hb Hcount Hfuel;
    (destruct fuel as [|fuel]; [lia|]); rewrite drawGrid_loop_step, Hb;
    cbn [number_leb].
  - destruct (Qle_bool (inject_Z first) b) eqn:E; [|reflexivity].
    apply Qle_bool_floor in E. lia.
  - destruct (Qle_bool (inject_Z first) b) eqn:E.
    + change (Fin 1) with (Fin (inject_Z 1)).
      rewrite number_add_inject_Z, indices_succ.
      apply IH; [exact Hb|lia|lia].
    + exfalso. apply not_true_iff_false in E. apply E.
      apply Qle_bool_floor. lia.
Qed.

(** With the bound [+Infinity] the loop does not end: no fuel is enough.  This
    is the loop of an object made with the width [Infinity] and a finite
    positive cell size. *)
Lemma drawGrid_loop_unbounded (fuel : nat) :
  forall (i : Q) (this : PixiJSGrid),
    number_sub (amtLines this)
      (if _drawBoundaries this then Fin 0 else Fin 1) = PInf ->
    drawGrid_loop fuel (Fin i) this = None.
Proof.
  induction fuel as [|fuel IH]; intros i this Hb; [reflexivity|].
  rewrite drawGrid_loop_step, Hb. cbn [number_leb number_add].
  apply IH. exact Hb.
Qed.

Lemma drawGrid_infinite_width (fuel : nat) :
  exists this : PixiJSGrid,
    new_PixiJSGrid example_hostLine (VNum PInf) (VNum (Fin 5)) None None
      None = Some this /\
    amtLines this = PInf /\
    drawGrid fuel this = None.
Proof.
  eexists. split; [vm_compute; reflexivity|]. split; [reflexivity|].
  rewrite drawGrid_unfold. cbn [_drawBoundaries].
  now rewrite drawGrid_loop_unbounded.
Qed.

(** The rounds draw the lines of their indices, after what was drawn, and
    leave the rest of the object as it was. *)
Lemma draw_rounds_geometry (idx : list Z) :
  forall this : PixiJSGrid,
    same_grid this (draw_rounds idx this) /\
    Graphics.geometry (super (draw_rounds idx this)) =
    Graphics.geometry (super this) ++
    grid_lines (Graphics.line (super this)) (ToNumber (_cellSize this))
      (ToNumber (_correctedWidth this)) idx.
Proof.
  induction idx as [|i idx IH]; intros this.
  - split; [apply same_grid_refl|]. cbn. now rewrite app_nil_r.
  - cbn [draw_rounds fold_left].
    destruct (IH (draw_lines_at (Fin (inject_Z i)) this)) as [Hsame Hgeom].
    split.
    + eapply same_grid_trans; [apply draw_lines_at_same|exact Hsame].
    + unfold draw_rounds in Hgeom. rewrite Hgeom.
      cbn [grid_lines flat_map]. unfold draw_lines_at, on_super.
      cbn. rewrite <- !app_assoc. reflexivity.
Qed.

Lemma Qfloor_minus_1 (q : Q) : Qfloor (q - 1) = (Qfloor q - 1)%Z.
Proof.
  apply Qfloor_unique.
  - pose proof (Qfloor_le q) as H.
    unfold Z.sub. rewrite inject_Z_plus, inject_Z_opp.
    change (inject_Z 1) with 1. lra.
  - pose proof (Qlt_floor q) as H.
    replace (Qfloor q - 1 + 1)%Z with (Qfloor q) by lia.
    rewrite inject_Z_plus in H. change (inject_Z 1) with 1 in H. lra.
Qed.

Lemma drawGrid_returns (this : PixiJSGrid) (cw cs : Q) (fuel : nat) :
  _correctedWidth this = VNum (Fin cw) ->
  _cellSize this = VNum (Fin cs) ->
  0 < cs ->
  (Z.to_nat (Qfloor (cw / cs) + 1) < fuel)%nat ->
  drawGrid fuel this =
  Some (This,
        on_super Graphics.endFill
          (draw_rounds (drawn_indices (_drawBoundaries this) cw cs)
             (cleared this))).
Proof.
  intros Hcw Hcs Hpos Hfuel.
  rewrite drawGrid_unfold.
  assert (Hamt : amtLines (cleared this) = fin (cw / cs)).
  { unfold amtLines, cellSize, cleared.
    cbn [with_super _correctedWidth _cellSize].
    rewrite Hcw, Hcs. cbn [ToNumber number_div].
    destruct (Qeq_bool cs 0) eqn:E; [|reflexivity].
    apply Qeq_bool_iff in E. lra. }
  unfold drawn_indices.
  destruct (_drawBoundaries this) eqn:Hdb.
  - change (Fin 0) with (Fin (inject_Z 0)) at 1.
    erewrite drawGrid_loop_rounds; [reflexivity| | |exact Hfuel].
    + change (_drawBoundaries (cleared this)) with (_drawBoundaries this).
      rewrite Hdb, Hamt. reflexivity.
    + f_equal. rewrite Z.sub_0_r. f_equal. apply Qfloor_comp.
      rewrite !Qred_correct. lra.
  - change (Fin 1) with (Fin (inject_Z 1)) at 1.
    erewrite drawGrid_loop_rounds; [reflexivity| | |].
    + change (_drawBoundaries (cleared this)) with (_drawBoundaries this).
      rewrite Hdb, Hamt. reflexivity.
    + f_equal.
      replace (Qfloor (cw / cs) - 1)%Z
        with (Qfloor (cw / cs) - 1 - 1 + 1)%Z by lia.
      do 2 f_equal. rewrite <- Qfloor_minus_1. apply Qfloor_comp.
      rewrite !Qred_correct. reflexivity.
    + lia.
Qed.

Lemma grid25_new :
  new_PixiJSGrid example_hostLine (VNum (Fin 25)) (VNum (Fin 10)) None None
    None = Some grid25.
Proof.
  vm_compute. reflexivity.
Qed.

(** C5, refuted as stated: the number of lines need not be an integer, and
    then the number of columns drawn is not that number plus 1.  On
    [new PixiJSGrid(25, 10)] the number of lines is 5/2 and [drawGrid()] draws
    the three columns and the three rows of the indices 0, 1 and 2; with
    [drawBoundaries] false it draws those of the index 1 alone, and skips the
    lines of the index 2, which lie inside the grid, at the offset 20. *)
Lemma drawGrid_fractional_line_count :
  new_PixiJSGrid example_hostLine (VNum (Fin 25)) (VNum (Fin 10)) None None
    None = Some grid25 /\
  amtLines grid25 = Fin (5 # 2) /\
  number_add (amtLines grid25) (Fin 1) = Fin (7 # 2) /\
  number_add (amtLines grid25) (Fin 1) <> Fin 3 /\
  (exists this' : PixiJSGrid,
     drawGrid 10 grid25 = Some (This, this') /\
     Graphics.geometry (super this') =
     grid_lines DEFAULT_LINE_STYLE (Fin 10) (Fin 25) [0; 1; 2]%Z /\
     length (Graphics.geometry (super this')) = 6%nat) /\
  (exists this' : PixiJSGrid,
     drawGrid 10 (with_drawBoundaries false grid25) = Some (This, this') /\
     Graphics.geometry (super this') =
     grid_lines DEFAULT_LINE_STYLE (Fin 10) (Fin 25) [1]%Z /\
     number_mul (Fin 2) (Fin 10) = Fin 20 /\
     number_ltb (Fin 20) (ToNumber (_correctedWidth grid25)) = true).
Proof.
  split; [exact grid25_new|]. split; [reflexivity|]. split; [reflexivity|].
  split; [vm_compute; discriminate|].
  split; eexists; (split; [vm_compute; reflexivity|]); repeat split.
Qed.

(** The lines drawn on a grid whose width in use and cell size are
    integers. *)
Lemma drawn_indices_integers (b : bool) (cw cs : Z) :
  (0 < cs)%Z ->
  drawn_indices b (inject_Z cw) (inject_Z cs) =
  if b then indices 0 (Z.to_nat (cw / cs + 1))
  else indices 1 (Z.to_nat (cw / cs - 1)).
Proof.
  intros Hpos. unfold drawn_indices.
  now rewrite Qfloor_div_inject_Z by assumption.
Qed.

Lemma drawGrid_integers (this : PixiJSGrid) (cw cs : Z) (fuel : nat) :
  _correctedWidth this = VNum (Fin (inject_Z cw)) ->
  _cellSize this = VNum (Fin (inject_Z cs)) ->
  (0 < cs)%Z ->
  (Z.to_nat (cw / cs + 1) < fuel)%nat ->
  exists this' : PixiJSGrid,
    drawGrid fuel this = Some (This, this') /\
    same_grid this this' /\
    Graphics.geometry (super this') =
    grid_lines (Graphics.line (super this)) (Fin (inject_Z cs))
      (Fin (inject_Z cw))
      (if _drawBoundaries this then indices 0 (Z.to_nat (cw / cs + 1))
       else indices 1 (Z.to_nat (cw / cs - 1))).
Proof.
  intros Hcw Hcs Hpos Hfuel.
  assert (Hq : 0 < inject_Z cs)
    by (change 0 with (inject_Z 0); now apply Qlt_inject_Z).
  assert (Hfuel' : (Z.to_nat (Qfloor (inject_Z cw / inject_Z cs) + 1) <
                    fuel)%nat)
    by now rewrite Qfloor_div_inject_Z.
  pose proof (drawGrid_returns this _ _ fuel Hcw Hcs Hq Hfuel') as Hdraw.
  eexists. split; [exact Hdraw|].
  split; [now apply drawGrid_same in Hdraw|].
  destruct (draw_rounds_geometry
              (drawn_indices (_drawBoundaries this) (inject_Z cw)
                 (inject_Z cs)) (cleared this)) as [_ Hgeom].
  cbn [on_super with_super super Graphics.endFill Graphics.geometry].
  rewrite Hgeom.
  change (_cellSize (cleared this)) with (_cellSize this).
  change (_correctedWidth (cleared this)) with (_correctedWidth this).
  rewrite Hcw, Hcs, drawn_indices_integers by assumption. reflexivity.
Qed.

(** What rounding does to the number of lines.  The width 1 is not a multiple
    of the double 0.1, which is greater than 1/10, but the quotient of the
    two rounds to 10: on [new PixiJSGrid(1, 0.1)] the loop of [drawGrid()]
    makes 11 rounds, one more than the exact quotient has it make. *)
Lemma amtLines_rounding :
  number_ltb (Fin (1 # 10)) (Binary64.to_number (Binary64.quotient 1 10)) =
    true /\
  Binary64.to_number
    (Binary64.amtLines (Binary64.of_Z 1) (Binary64.quotient 1 10)) = Fin 10 /\
  Binary64.rounds 20 (Binary64.first_counter true)
    (Binary64.loop_bound
       (Binary64.amtLines (Binary64.of_Z 1) (Binary64.quotient 1 10)) true) =
    11%nat /\
  Math_floor
    (number_div (Fin 1) (Binary64.to_number (Binary64.quotient 1 10))) =
    Fin 9.
Proof.
  repeat split; vm_compute; reflexivity.
Qed.

(** C5, as the code has it: on a grid whose width in use [cw] and cell size
    [cs] are integers, with [0 <= cw <= 2^52] and [0 < cs <= 2^52],
    [drawGrid()] returns, and what is drawn is, for each index in turn, the
    column and the row at the offset [index * cellSize], each from 0 to the
    width in use, in the line style of the grid.  With [drawBoundaries] true
    the indices run from 0 to the floor [l] of the number of lines, [l + 1] of
    them, and [l] is the number of lines when the cell size divides the
    width.  With [drawBoundaries] false, on a grid whose cell size divides
    its width, the indices run from 1 to [l - 1].  Every offset is an integer
    from 0 to the width in use.  The flag changes neither the bounds nor the
    cell coordinates, and neither does drawing. *)
Theorem drawGrid_draws_lines (this : PixiJSGrid) (cw cs : Z) (fuel : nat) :
  _correctedWidth this = VNum (Fin (inject_Z cw)) ->
  _cellSize this = VNum (Fin (inject_Z cs)) ->
  (0 <= cw <= 2 ^ 52)%Z ->
  (0 < cs <= 2 ^ 52)%Z ->
  (_drawBoundaries this = false -> (cs | cw)%Z) ->
  (Z.to_nat (cw / cs + 1) < fuel)%nat ->
  let l := (cw / cs)%Z in
  Math_floor (amtLines this) = Fin (inject_Z l) /\
  (0 <= l)%Z /\
  ((cs | cw)%Z -> amtLines this = Fin (inject_Z l)) /\
  (exists this' : PixiJSGrid,
     drawGrid fuel this = Some (This, this') /\
     Graphics.geometry (super this') =
       grid_lines (Graphics.line (super this)) (Fin (inject_Z cs))
         (Fin (inject_Z cw))
         (if _drawBoundaries this then indices 0 (Z.to_nat (l + 1))
          else indices 1 (Z.to_nat (l - 1))) /\
     Graphics.line (super this') = Graphics.line (super this) /\
     bounds this' = bounds this /\
     (forall x y : number,
        getCellCoordinates x y this' = getCellCoordinates x y this)) /\
  length (indices 0 (Z.to_nat (l + 1))) = Z.to_nat (l + 1) /\
  (forall i : Z,
     In i (indices 0 (Z.to_nat (l + 1))) ->
     number_mul (Fin (inject_Z i)) (Fin (inject_Z cs)) =
       Fin (inject_Z (i * cs)) /\
     (0 <= i * cs <= cw)%Z) /\
  (forall b : bool,
     bounds (with_drawBoundaries b this) = bounds this /\
     forall x y : number,
       getCellCoordinates x y (with_drawBoundaries b this) =
       getCellCoordinates x y this).
Proof.
  intros Hcw Hcs [Hnn _] [Hpos _] _ Hfuel l.
  assert (Hl : (0 <= l)%Z) by (apply Z.div_pos; lia).
  split.
  { unfold amtLines, cellSize. rewrite Hcw, Hcs. cbn [ToNumber].
    now apply Math_floor_div_inject_Z. }
  split; [exact Hl|].
  split.
  { intros [k Hk]. unfold amtLines, cellSize. rewrite Hcw, Hcs.
    cbn [ToNumber]. subst l. rewrite Hk, Z.div_mul by lia.
    apply number_div_inject_Z. lia. }
  split.
  { destruct (drawGrid_integers this cw cs fuel Hcw Hcs Hpos Hfuel)
      as (this' & Hdraw & Hsame & Hgeom).
    exists this'. split; [exact Hdraw|]. split; [exact Hgeom|].
    apply same_grid_fields in Hsame.
    destruct Hsame as (_ & _ & _ & Hline & Hb & Hcell).
    now repeat split. }
  split; [apply indices_length|].
  split.
  { intros i Hi. split; [apply number_mul_inject_Z|].
    unfold indices in Hi. apply in_map_iff in Hi.
    destruct Hi as (k & <- & Hk). apply in_seq in Hk.
    assert (Hi : (0 <= 0 + Z.of_nat k <= l)%Z) by lia.
    split; [lia|].
    apply Z.le_trans with (l * cs)%Z; [nia|].
    subst l. rewrite Z.mul_comm. apply Z.mul_div_le. lia. }
  intros b. split; reflexivity.
Qed.

Lemma drawGrid_draws_lines_witness :
  Math_floor (amtLines (with_drawBoundaries false grid16)) =
    Fin (inject_Z (16 / 4)) /\
  (0 <= 16 / 4)%Z /\
  ((4 | 16)%Z ->
   amtLines (with_drawBoundaries false grid16) = Fin (inject_Z (16 / 4))) /\
  (exists this' : PixiJSGrid,
     drawGrid 10 (with_drawBoundaries false grid16) = Some (This, this') /\
     Graphics.geometry (super this') =
       grid_lines (Graphics.line (super (with_drawBoundaries false grid16)))
         (Fin (inject_Z 4)) (Fin (inject_Z 16))
         (if _drawBoundaries (with_drawBoundaries false grid16)
          then indices 0 (Z.to_nat (16 / 4 + 1))
          else indices 1 (Z.to_nat (16 / 4 - 1))) /\
     Graphics.line (super this') =
       Graphics.line (super (with_drawBoundaries false grid16)) /\
     bounds this' = bounds (with_drawBoundaries false grid16) /\
     (forall x y : number,
        getCellCoordinates x y this' =
        getCellCoordinates x y (with_drawBoundaries false grid16))) /\
  length (indices 0 (Z.to_nat (16 / 4 + 1))) = Z.to_nat (16 / 4 + 1) /\
  (forall i : Z,
     In i (indices 0 (Z.to_nat (16 / 4 + 1))) ->
     number_mul (Fin (inject_Z i)) (Fin (inject_Z 4)) =
       Fin (inject_Z (i * 4)) /\
     (0 <= i * 4 <= 16)%Z) /\
  (forall b : bool,
     bounds (with_drawBoundaries b (with_drawBoundaries false grid16)) =
       bounds (with_drawBoundaries false grid16) /\
     forall x y : number,
       getCellCoordinates x y
         (with_drawBoundaries b (with_drawBoundaries false grid16)) =
       getCellCoordinates x y (with_drawBoundaries false grid16)).
Proof.
  apply (drawGrid_draws_lines (with_drawBoundaries false grid16) 16 4 10);
    try reflexivity.
  - simpl; lia.
  - simpl; lia.
  - intros _. exists 4%Z. reflexivity.
  - vm_compute; lia.
Defined.

(** ** Drawing again *)

Lemma cleared_idempotent (this : PixiJSGrid) :
  cleared (cleared this) = cleared this.
Proof.
  reflexivity.
Qed.

Lemma drawGrid_cleared (fuel : nat) (this : PixiJSGrid) :
  drawGrid fuel (cleared this) = drawGrid fuel this.
Proof.
  rewrite !drawGrid_unfold. reflexivity.
Qed.



(** C8, as the code has it: [drawGrid()] returns the object whenever it
    returns, and so does [clearGrid(retainLineStyle)] when [retainLineStyle]
    is true or omitted; [clearGrid(false)] returns [undefined], after
    clearing, as on [new PixiJSGrid(16)]. *)
Theorem clearGrid_false_returns_undefined :
  (forall this : PixiJSGrid,
     clearGrid (Some false) this = (Undefined, on_super Graphics.clear this)) /\
  (forall this : PixiJSGrid,
     fst (clearGrid (Some true) this) = This /\
     fst (clearGrid None this) = This) /\
  (forall (fuel : nat) (this : PixiJSGrid),
     match drawGrid fuel this with
     | Some (r, _) => r = This
     | None => True
     end) /\
  fst (clearGrid (Some false) grid16) = Undefined /\
  fst (clearGrid (Some false) grid16) <> This.
Proof.
  split; [reflexivity|]. split.
  - intros this. destruct (clearGrid_retain this) as [-> ->]. now split.
  - split.
    + intros fuel this. destruct (drawGrid fuel this) as [[r g]|] eqn:E;
        [|exact I].
      now apply drawGrid_same in E.
    + split; [reflexivity|discriminate].
Qed.

(** ** Further properties of the class *)

(** *** The bounds *)

(** X1: on an object whose position and width in use are integers up to 2^52
    in magnitude, the width not negative, the bounds are a square with the
    width in use as its side: [x2 - x1] and [y2 - y1] are both that width,
    which is what [gridWidth] returns. *)
Theorem bounds_are_square (this : PixiJSGrid) (ox oy cw : Z) :
  Graphics.x (super this) = Fin (inject_Z ox) ->
  Graphics.y (super this) = Fin (inject_Z oy) ->
  _correctedWidth this = VNum (Fin (inject_Z cw)) ->
  (Z.abs ox <= 2 ^ 52)%Z ->
  (Z.abs oy <= 2 ^ 52)%Z ->
  (0 <= cw <= 2 ^ 52)%Z ->
  bounds this =
    Bounds.mk (Fin (inject_Z ox)) (Fin (inject_Z oy))
      (Fin (inject_Z (ox + cw))) (Fin (inject_Z (oy + cw))) /\
  number_sub (Bounds.x2 (bounds this)) (Bounds.x1 (bounds this)) =
    Fin (inject_Z cw) /\
  number_sub (Bounds.y2 (bounds this)) (Bounds.y1 (bounds this)) =
    Fin (inject_Z cw) /\
  ToNumber (gridWidth this) = Fin (inject_Z cw).
Proof.
  intros Hx Hy Hcw _ _ _.
  assert (Hb : bounds this =
               Bounds.mk (Fin (inject_Z ox)) (Fin (inject_Z oy))
                 (Fin (inject_Z (ox + cw))) (Fin (inject_Z (oy + cw)))).
  { unfold bounds. rewrite Hx, Hy, Hcw. cbn [ToNumber].
    now rewrite !number_add_inject_Z. }
  split; [exact Hb|]. rewrite Hb. cbn [Bounds.x1 Bounds.x2 Bounds.y1 Bounds.y2].
  rewrite !number_sub_inject_Z. unfold gridWidth. rewrite Hcw.
  repeat split; do 2 f_equal; lia.
Qed.

Lemma bounds_are_square_witness :
  bounds grid16 =
    Bounds.mk (Fin (inject_Z 0)) (Fin (inject_Z 0))
      (Fin (inject_Z (0 + 16))) (Fin (inject_Z (0 + 16))) /\
  number_sub (Bounds.x2 (bounds grid16)) (Bounds.x1 (bounds grid16)) =
    Fin (inject_Z 16) /\
  number_sub (Bounds.y2 (bounds grid16)) (Bounds.y1 (bounds grid16)) =
    Fin (inject_Z 16) /\
  ToNumber (gridWidth grid16) = Fin (inject_Z 16).
Proof.
  apply (bounds_are_square grid16 0 0 16); try reflexivity; simpl; lia.
Defined.

(** *** The fields after construction *)

Lemma step_fields (a b : PixiJSGrid) :
  step a b ->
  _gridWidth b = _gridWidth a /\
  _correctedWidth b = _correctedWidth a /\
  _doCorrectWidth b = _doCorrectWidth a /\
  _drawBoundaries b = _drawBoundaries a /\
  _amtLines b = _amtLines a.
Proof.
  intros [v this this' Hset|f this|b0 this|fuel this this' r Hdraw].
  - apply set_cellSize_frame in Hset. rewrite Hset. now repeat split.
  - now repeat split.
  - destruct b0 as [[|]|]; now repeat split.
  - apply drawGrid_same in Hdraw. destruct Hdraw as [_ [Hown _]].
    rewrite <- Hown. now repeat split.
Qed.

(** X2: no operation on an object changes the requested width, the width in
    use, the two flags or the unused field [_amtLines]: they are what the
    constructor made them, whatever is assigned to [cellSize], drawn or
    cleared afterwards. *)
Theorem fields_fixed_after_construction (a b : PixiJSGrid) :
  evolves a b ->
  _gridWidth b = _gridWidth a /\
  _correctedWidth b = _correctedWidth a /\
  gridWidth b = gridWidth a /\
  _doCorrectWidth b = _doCorrectWidth a /\
  _drawBoundaries b = _drawBoundaries a /\
  _amtLines b = _amtLines a.
Proof.
  induction 1 as [this|a b c _ IH Hstep]; [now repeat split|].
  apply step_fields in Hstep. unfold gridWidth in *.
  intuition congruence.
Qed.

Lemma fields_fixed_after_construction_witness :
  _gridWidth (with_cellSize (VNum (Fin 2)) grid16) = _gridWidth grid16 /\
  _correctedWidth (with_cellSize (VNum (Fin 2)) grid16) =
    _correctedWidth grid16 /\
  gridWidth (with_cellSize (VNum (Fin 2)) grid16) = gridWidth grid16 /\
  _doCorrectWidth (with_cellSize (VNum (Fin 2)) grid16) =
    _doCorrectWidth grid16 /\
  _drawBoundaries (with_cellSize (VNum (Fin 2)) grid16) =
    _drawBoundaries grid16 /\
  _amtLines (with_cellSize (VNum (Fin 2)) grid16) = _amtLines grid16.
Proof.
  apply (fields_fixed_after_construction grid16
           (with_cellSize (VNum (Fin 2)) grid16)).
  apply (evolves_step grid16 grid16); [apply evolves_refl|].
  apply (step_set_cellSize (VNum (Fin 2))). reflexivity.
Defined.

(** What the setter stores is a number, and a falsy one only when it is the
    root of the width in use. *)
Lemma set_cellSize_stored (v : value) (this this' : PixiJSGrid) :
  set_cellSize v this = Some this' ->
  exists c : number,
    _cellSize this' = VNum c /\
    (number_truthy c = true \/
     Math_sqrt (ToNumber (_correctedWidth this')) = Exact c).
Proof.
  unfold set_cellSize.
  destruct (ToBoolean (default_value VNull v)) eqn:Hv.
  - intros [= <-]. destruct v as [| |n]; try discriminate.
    exists n. split; [reflexivity|]. now left.
  - destruct (Math_sqrt (ToNumber (_correctedWidth this))) as [r|q] eqn:Hr;
      [|discriminate].
    intros [= <-]. exists r. split; [reflexivity|]. now right.
Qed.

Lemma reachable_fields (this : PixiJSGrid) :
  reachable this ->
  _correctedWidth this = VNum (corrected_width (ToNumber (_gridWidth this))) /\
  _amtLines this = VNull /\
  exists c : number,
    _cellSize this = VNum c /\
    (number_truthy c = true \/
     Math_sqrt (ToNumber (_correctedWidth this)) = Exact c).
Proof.
  induction 1 as [hostLine width cs lc dcw db this Hnew
                 |v this this' _ IH Hset
                 |f this _ IH
                 |b this _ IH
                 |fuel this this' r _ IH Hdraw].
  - destruct (new_PixiJSGrid_total hostLine width cs lc dcw db)
      as (c & Hset & Hnew').
    rewrite Hnew' in Hnew. injection Hnew as <-.
    apply set_cellSize_stored in Hset.
    split; [|split; [|exact Hset]].
    + unfold before_set_cellSize, _correctWidth.
      cbn [_doCorrectWidth]. now destruct (default_bool true dcw).
    + unfold before_set_cellSize, _correctWidth.
      cbn [_doCorrectWidth]. now destruct (default_bool true dcw).
  - pose proof (set_cellSize_stored v this this' Hset) as Hc.
    apply set_cellSize_frame in Hset.
    destruct IH as (Hw & Ha & _).
    split; [|split; [|exact Hc]]; rewrite Hset; assumption.
  - exact IH.
  - destruct b as [[|]|]; exact IH.
  - apply drawGrid_same in Hdraw. destruct Hdraw as [_ [Hown _]].
    rewrite <- Hown in IH. exact IH.
Qed.

(** X3: on every object a program can hold the width in use is
    [Math.ceil(Math.sqrt(w)) ** 2] of the requested width [w], at all times,
    and the field [_amtLines] is [null]: the getter [amtLines] never reads
    it. *)
Theorem width_in_use_invariant (this : PixiJSGrid) :
  reachable this ->
  gridWidth this =
    VNum (number_sq (Math_ceil (Math_sqrt (ToNumber (_gridWidth this))))) /\
  _amtLines this = VNull.
Proof.
  intros Hreach. apply reachable_fields in Hreach.
  destruct Hreach as (Hw & Ha & _). now split.
Qed.

Lemma width_in_use_invariant_witness :
  gridWidth grid16 =
    VNum (number_sq (Math_ceil (Math_sqrt (ToNumber (_gridWidth grid16))))) /\
  _amtLines grid16 = VNull.
Proof.
  apply (width_in_use_invariant grid16 grid16_reachable).
Defined.

(** X4: on every object a program can hold whose requested width is finite
    and positive, the cell size is a number other than zero and [NaN], at all
    times: the divisions by the cell size in [amtLines] and
    [getCellCoordinates] never divide by zero.  (The cell size can be
    negative.) *)
Theorem cellSize_never_zero (this : PixiJSGrid) (w : Q) :
  reachable this ->
  _gridWidth this = VNum (Fin w) ->
  0 < w ->
  exists c : number,
    cellSize this = VNum c /\
    number_truthy c = true /\
    c <> Fin 0 /\ c <> NaN.
Proof.
  intros Hreach Hgw Hw.
  destruct (reachable_fields this Hreach) as (Hcw & _ & c & Hc & Hor).
  exists c. split; [exact Hc|].
  assert (Ht : number_truthy c = true).
  { destruct Hor as [Ht|Hr]; [exact Ht|].
    rewrite Hcw, Hgw in Hr. cbn [ToNumber] in Hr.
    destruct (ceil_sqrt_spec w Hw) as (n & Hceil & Hn & _).
    unfold corrected_width in Hr.
    rewrite Hceil, number_sq_inject_Z, Math_sqrt_square in Hr by lia.
    injection Hr as <-. cbn [number_truthy].
    apply negb_true_iff. apply not_true_iff_false.
    intros H. apply Qeq_bool_iff in H.
    assert (H0 : inject_Z n <= inject_Z 0) by (change (inject_Z 0) with 0; lra).
    apply (proj1 (Qle_inject_Z _ _)) in H0. lia. }
  split; [exact Ht|].
  split; intros ->; discriminate.
Qed.

Lemma cellSize_never_zero_witness :
  exists c : number,
    cellSize grid16 = VNum c /\
    number_truthy c = true /\
    c <> Fin 0 /\ c <> NaN.
Proof.
  apply (cellSize_never_zero grid16 16 grid16_reachable); reflexivity.
Defined.

(** *** The correction of the width *)

Lemma corrected_width_cases (a : number) :
  corrected_width a = NaN \/
  corrected_width a = PInf \/
  exists n : Z, (0 <= n)%Z /\ corrected_width a = Fin (inject_Z (n * n)).
Proof.
  exact (sq_ceil_sqrt_cases a).
Qed.

Lemma corrected_width_square (n : Z) :
  (0 <= n)%Z ->
  corrected_width (Fin (inject_Z (n * n))) = Fin (inject_Z (n * n)).
Proof.
  intros Hn. unfold corrected_width.
  rewrite Math_sqrt_square by assumption.
  cbn [Math_ceil]. rewrite Qceiling_Z. apply number_sq_inject_Z.
Qed.

Lemma new_gridWidth (hostLine : LineStyle.t) (width cs : value)
    (lineConfig : option LineStyle.t) (dcw db : option bool) :
  exists this : PixiJSGrid,
    new_PixiJSGrid hostLine width cs lineConfig dcw db = Some this /\
    _gridWidth this = width /\
    gridWidth this = VNum (corrected_width (ToNumber width)).
Proof.
  destruct (new_PixiJSGrid_total hostLine width cs lineConfig dcw db)
    as (c & _ & Hnew).
  eexists. split; [exact Hnew|].
  unfold gridWidth, before_set_cellSize, _correctWidth.
  cbn [_doCorrectWidth]. now destruct (default_bool true dcw).
Qed.

(** X5: the correction of the width is idempotent.  An object made with the
    width that [gridWidth] returns on another object has that same width in
    use, whatever the other arguments of the two constructions. *)
Theorem corrected_width_idempotent :
  forall (hostLine hostLine' : LineStyle.t) (width cs cs' : value)
         (lineConfig lineConfig' : option LineStyle.t)
         (dcw db dcw' db' : option bool),
  exists this again : PixiJSGrid,
    new_PixiJSGrid hostLine width cs lineConfig dcw db = Some this /\
    new_PixiJSGrid hostLine' (gridWidth this) cs' lineConfig' dcw' db' =
      Some again /\
    gridWidth again = gridWidth this.
Proof.
  intros hostLine hostLine' width cs cs' lineConfig lineConfig' dcw db dcw'
    db'.
  destruct (new_gridWidth hostLine width cs lineConfig dcw db)
    as (this & Hnew & _ & Hgw).
  destruct (new_gridWidth hostLine' (gridWidth this) cs' lineConfig' dcw' db')
    as (again & Hnew' & _ & Hgw').
  exists this, again. split; [exact Hnew|]. split; [exact Hnew'|].
  rewrite Hgw', Hgw. cbn [ToNumber]. f_equal.
  destruct (corrected_width_cases (ToNumber width)) as [H|[H|(n & Hn & H)]];
    rewrite H; try reflexivity.
  now apply corrected_width_square.
Qed.

(** X6: the correction of the width is monotone.  Of two objects made with
    finite positive widths [w1 <= w2], the first has a width in use that is
    not greater than that of the second. *)
Theorem corrected_width_monotone (hostLine hostLine' : LineStyle.t)
    (w1 w2 : Q) (cs cs' : value) (lineConfig lineConfig' : option LineStyle.t)
    (dcw db dcw' db' : option bool) :
  0 < w1 ->
  w1 <= w2 ->
  exists (this this' : PixiJSGrid) (c1 c2 : Q),
    new_PixiJSGrid hostLine (VNum (Fin w1)) cs lineConfig dcw db = Some this /\
    new_PixiJSGrid hostLine' (VNum (Fin w2)) cs' lineConfig' dcw' db' =
      Some this' /\
    gridWidth this = VNum (Fin c1) /\
    gridWidth this' = VNum (Fin c2) /\
    c1 <= c2 /\
    number_leb (ToNumber (gridWidth this)) (ToNumber (gridWidth this')) = true.
Proof.
  intros Hw1 Hle.
  assert (Hw2 : 0 < w2) by lra.
  destruct (new_gridWidth hostLine (VNum (Fin w1)) cs lineConfig dcw db)
    as (this & Hnew & _ & Hgw).
  destruct (new_gridWidth hostLine' (VNum (Fin w2)) cs' lineConfig' dcw' db')
    as (this' & Hnew' & _ & Hgw').
  destruct (ceil_sqrt_spec w1 Hw1) as (n1 & Hc1 & Hn1 & Hlo1 & Hhi1).
  destruct (ceil_sqrt_spec w2 Hw2) as (n2 & Hc2 & Hn2 & Hlo2 & Hhi2).
  cbn [ToNumber] in Hgw, Hgw'. unfold corrected_width in Hgw, Hgw'.
  rewrite Hc1, number_sq_inject_Z in Hgw.
  rewrite Hc2, number_sq_inject_Z in Hgw'.
  assert (Hsq : (n1 * n1 <= n2 * n2)%Z).
  { assert (Hlt : ((n1 - 1) * (n1 - 1) < n2 * n2)%Z)
      by (apply Qlt_inject_Z; lra).
    destruct (Z.le_gt_cases n1 n2) as [H12|H21].
    - apply Z.square_le_mono_nonneg; lia.
    - assert (n2 * n2 <= (n1 - 1) * (n1 - 1))%Z
        by (apply Z.square_le_mono_nonneg; lia).
      lia. }
  exists this, this', (inject_Z (n1 * n1)), (inject_Z (n2 * n2)).
  split; [exact Hnew|]. split; [exact Hnew'|].
  split; [exact Hgw|]. split; [exact Hgw'|].
  assert (Hq : inject_Z (n1 * n1) <= inject_Z (n2 * n2))
    by now apply Qle_inject_Z.
  split; [exact Hq|].
  rewrite Hgw, Hgw'. cbn [ToNumber number_leb]. now apply Qle_bool_iff.
Qed.

Lemma corrected_width_monotone_witness :
  exists (this this' : PixiJSGrid) (c1 c2 : Q),
    new_PixiJSGrid example_hostLine (VNum (Fin 10)) VUndefined None None
      None = Some this /\
    new_PixiJSGrid example_hostLine (VNum (Fin 17)) VUndefined None None
      None = Some this' /\
    gridWidth this = VNum (Fin c1) /\
    gridWidth this' = VNum (Fin c2) /\
    c1 <= c2 /\
    number_leb (ToNumber (gridWidth this)) (ToNumber (gridWidth this')) = true.
Proof.
  apply (corrected_width_monotone example_hostLine example_hostLine 10 17);
    [reflexivity|unfold Qle; simpl; lia].
Defined.

(** *** The cell size and the number of lines *)

(** X7: an object made with a width that is an integer [w] with
    [0 < w <= 2^52] and no cell size (or a falsy one) has [n] lines of cells
    [n] wide, where [n * n] is the width in use: the default cell size and
    the number of lines are the same positive integer. *)
Theorem default_cellSize_equals_line_count (hostLine : LineStyle.t) (w : Z)
    (cs : value) (lineConfig : option LineStyle.t) (dcw db : option bool) :
  (0 < w <= 2 ^ 52)%Z ->
  ToBoolean cs = false ->
  exists (this : PixiJSGrid) (n : Z),
    new_PixiJSGrid hostLine (VNum (Fin (inject_Z w))) cs lineConfig dcw db =
      Some this /\
    (0 < n)%Z /\
    gridWidth this = VNum (Fin (inject_Z (n * n))) /\
    cellSize this = VNum (Fin (inject_Z n)) /\
    amtLines this = Fin (inject_Z n).
Proof.
  intros [Hw _] Hcs.
  destruct (new_PixiJSGrid_total hostLine (VNum (Fin (inject_Z w))) cs
              lineConfig dcw db) as (c & Hset & Hnew).
  assert (Hq : 0 < inject_Z w)
    by (change 0 with (inject_Z 0); now apply Qlt_inject_Z).
  destruct (ceil_sqrt_spec (inject_Z w) Hq) as (n & Hceil & Hn & _).
  set (g := before_set_cellSize hostLine (VNum (Fin (inject_Z w))) dcw db)
    in *.
  assert (Hcw : _correctedWidth g = VNum (Fin (inject_Z (n * n)))).
  { unfold g, before_set_cellSize.
    cbn [with_drawBoundaries _correctedWidth].
    rewrite _correctWidth_width. cbn [_gridWidth ToNumber].
    now rewrite Hceil, number_sq_inject_Z. }
  rewrite (set_cellSize_falsy cs g (Fin (inject_Z n)) Hcs) in Hset.
  2:{ rewrite Hcw. cbn [ToNumber]. apply Math_sqrt_square. lia. }
  injection Hset as <-.
  eexists. exists n. split; [exact Hnew|]. split; [exact Hn|].
  unfold gridWidth, amtLines, cellSize.
  cbn [with_super with_cellSize _correctedWidth _cellSize].
  rewrite Hcw. split; [reflexivity|]. split; [reflexivity|].
  cbn [ToNumber]. apply number_div_inject_Z. lia.
Qed.

Lemma default_cellSize_equals_line_count_witness :
  exists (this : PixiJSGrid) (n : Z),
    new_PixiJSGrid example_hostLine (VNum (Fin (inject_Z 10))) VNull None None
      None = Some this /\
    (0 < n)%Z /\
    gridWidth this = VNum (Fin (inject_Z (n * n))) /\
    cellSize this = VNum (Fin (inject_Z n)) /\
    amtLines this = Fin (inject_Z n).
Proof.
  apply (default_cellSize_equals_line_count example_hostLine 10 VNull None
           None None); [simpl; lia|reflexivity].
Defined.

(** X8: on an object whose width in use and cell size are integers up to 2^52
    in magnitude, and the width a multiple [k * cs] of the cell size [cs],
    the number of lines is [k], and the number of lines times the cell size
    is the width in use. *)
Theorem line_count_times_cellSize (this : PixiJSGrid) (k cs : Z) :
  _correctedWidth this = VNum (Fin (inject_Z (k * cs))) ->
  cellSize this = VNum (Fin (inject_Z cs)) ->
  (cs <> 0)%Z ->
  (Z.abs cs <= 2 ^ 52)%Z ->
  (Z.abs (k * cs) <= 2 ^ 52)%Z ->
  amtLines this = Fin (inject_Z k) /\
  number_mul (amtLines this) (ToNumber (cellSize this)) =
    ToNumber (gridWidth this).
Proof.
  intros Hcw Hcs Hne _ _.
  assert (Hamt : amtLines this = Fin (inject_Z k)).
  { unfold amtLines. rewrite Hcw, Hcs. cbn [ToNumber].
    now apply number_div_inject_Z. }
  split; [exact Hamt|].
  unfold gridWidth. rewrite Hamt, Hcs, Hcw. cbn [ToNumber].
  apply number_mul_inject_Z.
Qed.

Lemma line_count_times_cellSize_witness :
  amtLines grid16 = Fin (inject_Z 4) /\
  number_mul (amtLines grid16) (ToNumber (cellSize grid16)) =
    ToNumber (gridWidth grid16).
Proof.
  apply (line_count_times_cellSize grid16 4 4); try reflexivity; simpl; lia.
Defined.

(** X9: an assignment to [cellSize] overwrites the one before it: after any
    assignment, the assignment of [v] leaves the object as the assignment of
    [v] alone does.  So assigning [null] brings back the default cell size,
    whatever was assigned before. *)
Theorem set_cellSize_last_wins (v1 v2 : value) (this this1 : PixiJSGrid) :
  set_cellSize v1 this = Some this1 ->
  set_cellSize v2 this1 = set_cellSize v2 this /\
  (forall this2 : PixiJSGrid,
     set_cellSize VNull this1 = Some this2 ->
     Math_sqrt (ToNumber (gridWidth this)) = Exact (ToNumber (cellSize this2))).
Proof.
  intros H1. apply set_cellSize_frame in H1. rewrite H1. split.
  - unfold set_cellSize. cbn [with_cellSize _correctedWidth].
    destruct (ToBoolean (default_value VNull v2)); [reflexivity|].
    destruct (root_number _); reflexivity.
  - intros this2. unfold set_cellSize, gridWidth, cellSize.
    cbn [default_value ToBoolean with_cellSize _correctedWidth].
    destruct (Math_sqrt (ToNumber (_correctedWidth this))) as [r|q];
      [|discriminate].
    now intros [= <-].
Qed.

Lemma set_cellSize_last_wins_witness :
  set_cellSize VNull (with_cellSize (VNum (Fin (-3))) grid16) =
    set_cellSize VNull grid16 /\
  (forall this2 : PixiJSGrid,
     set_cellSize VNull (with_cellSize (VNum (Fin (-3))) grid16) =
       Some this2 ->
     Math_sqrt (ToNumber (gridWidth grid16)) =
       Exact (ToNumber (cellSize this2))).
Proof.
  apply (set_cellSize_last_wins (VNum (Fin (-3))) VNull grid16).
  reflexivity.
Defined.

(** *** Cells and the pointer *)

Lemma getCellCoordinates_finite (this : PixiJSGrid) (ox oy cs x y : Q) :
  Graphics.x (super this) = Fin ox ->
  Graphics.y (super this) = Fin oy ->
  cellSize this = VNum (Fin cs) ->
  ~ cs == 0 ->
  getCellCoordinates (Fin x) (Fin y) this =
  Point.mk (Fin (inject_Z (Qfloor ((x - ox) / cs))))
           (Fin (inject_Z (Qfloor ((y - oy) / cs)))).
Proof.
  intros Hx Hy Hcs Hne. unfold getCellCoordinates, bounds.
  cbn [Bounds.x1 Bounds.y1]. rewrite Hx, Hy, Hcs. cbn [ToNumber].
  now rewrite !cell_index_finite by assumption.
Qed.

(** X10: every point lies in the cell it is mapped to, and in no other.  On a
    grid whose position [(ox, oy)] and cell size [cs > 0] are integers, for
    integers [x] and [y], all of them up to 2^51 in magnitude,
    [getCellCoordinates(x, y)] is the one pair of integers [(i, j)] with
    [ox + i * cs <= x < ox + (i + 1) * cs] and
    [oy + j * cs <= y < oy + (j + 1) * cs]. *)
Theorem point_lies_in_its_cell (this : PixiJSGrid) (ox oy cs x y : Z) :
  Graphics.x (super this) = Fin (inject_Z ox) ->
  Graphics.y (super this) = Fin (inject_Z oy) ->
  cellSize this = VNum (Fin (inject_Z cs)) ->
  (Z.abs ox <= 2 ^ 51)%Z ->
  (Z.abs oy <= 2 ^ 51)%Z ->
  (0 < cs <= 2 ^ 51)%Z ->
  (Z.abs x <= 2 ^ 51)%Z ->
  (Z.abs y <= 2 ^ 51)%Z ->
  forall i j : Z,
    getCellCoordinates (Fin (inject_Z x)) (Fin (inject_Z y)) this =
      Point.mk (Fin (inject_Z i)) (Fin (inject_Z j)) <->
    (ox + i * cs <= x < ox + (i + 1) * cs)%Z /\
    (oy + j * cs <= y < oy + (j + 1) * cs)%Z.
Proof.
  intros Hx Hy Hcs _ _ [Hpos _] _ _ i j.
  rewrite (getCellCoordinates_integers this ox oy cs x y Hx Hy Hcs Hpos).
  assert (Hcell : forall u o k : Z,
            ((u - o) / cs = k <->
             o + k * cs <= u < o + (k + 1) * cs)%Z).
  { intros u o k. split.
    - intros <-.
      pose proof (Z.mul_div_le (u - o) cs Hpos).
      pose proof (Z.mul_succ_div_gt (u - o) cs Hpos).
      lia.
    - intros Hk. symmetry.
      apply Z.div_unique with (r := (u - o - k * cs)%Z); lia. }
  split.
  - intros [= Hi Hj]. split; now apply Hcell.
  - intros [Hi Hj]. apply Hcell in Hi. apply Hcell in Hj.
    now rewrite Hi, Hj.
Qed.

Lemma point_lies_in_its_cell_witness :
  getCellCoordinates (Fin (inject_Z 9)) (Fin (inject_Z 3)) grid16 =
    Point.mk (Fin (inject_Z 2)) (Fin (inject_Z 0)) <->
  (0 + 2 * 4 <= 9 < 0 + (2 + 1) * 4)%Z /\
  (0 + 0 * 4 <= 3 < 0 + (0 + 1) * 4)%Z.
Proof.
  apply (point_lies_in_its_cell grid16 0 0 4 9 3); try reflexivity;
    simpl; lia.
Defined.

(** X11: the cell coordinates undo the placement of the lines.  On a grid
    whose position and cell size are integers, the cell size greater than
    zero, the point where the column of index [i] and the row of index [j]
    cross, at the offsets [i * cellSize] and [j * cellSize] from the origin
    at which [drawGrid] draws them, maps to the cell [(i, j)], as long as the
    position and the two offsets are at most 2^51 in magnitude. *)
Theorem cell_of_line_crossing (this : PixiJSGrid) (ox oy cs i j : Z) :
  Graphics.x (super this) = Fin (inject_Z ox) ->
  Graphics.y (super this) = Fin (inject_Z oy) ->
  cellSize this = VNum (Fin (inject_Z cs)) ->
  (Z.abs ox <= 2 ^ 51)%Z ->
  (Z.abs oy <= 2 ^ 51)%Z ->
  (0 < cs)%Z ->
  (Z.abs (i * cs) <= 2 ^ 51)%Z ->
  (Z.abs (j * cs) <= 2 ^ 51)%Z ->
  getCellCoordinates
    (number_add (Bounds.x1 (bounds this))
       (number_mul (Fin (inject_Z i)) (ToNumber (cellSize this))))
    (number_add (Bounds.y1 (bounds this))
       (number_mul (Fin (inject_Z j)) (ToNumber (cellSize this))))
    this =
  Point.mk (Fin (inject_Z i)) (Fin (inject_Z j)).
Proof.
  intros Hx Hy Hcs _ _ Hpos _ _.
  unfold bounds at 1 2. cbn [Bounds.x1 Bounds.y1].
  rewrite Hx, Hy, Hcs. cbn [ToNumber].
  rewrite !number_mul_inject_Z, !number_add_inject_Z.
  rewrite (getCellCoordinates_integers this ox oy cs _ _ Hx Hy Hcs Hpos).
  replace (ox + i * cs - ox)%Z with (i * cs)%Z by lia.
  replace (oy + j * cs - oy)%Z with (j * cs)%Z by lia.
  now rewrite !Z.div_mul by lia.
Qed.

Lemma cell_of_line_crossing_witness :
  getCellCoordinates
    (number_add (Bounds.x1 (bounds grid16))
       (number_mul (Fin (inject_Z 3)) (ToNumber (cellSize grid16))))
    (number_add (Bounds.y1 (bounds grid16))
       (number_mul (Fin (inject_Z 2)) (ToNumber (cellSize grid16))))
    grid16 =
  Point.mk (Fin (inject_Z 3)) (Fin (inject_Z 2)).
Proof.
  apply (cell_of_line_crossing grid16 0 0 4 3 2); try reflexivity;
    simpl; lia.
Defined.

(** X12: the cell coordinates depend on the pointer's position relative to
    the grid alone.  Moving a grid at an integer position by integers
    [(dx, dy)] and a point with integer coordinates by the same amount, all
    of these up to 2^51 in magnitude, leaves the cell coordinates as they
    were, whatever the cell size. *)
Theorem getCellCoordinates_translation (this : PixiJSGrid)
    (ox oy x y dx dy : Z) :
  Graphics.x (super this) = Fin (inject_Z ox) ->
  Graphics.y (super this) = Fin (inject_Z oy) ->
  (Z.abs ox <= 2 ^ 51)%Z ->
  (Z.abs oy <= 2 ^ 51)%Z ->
  (Z.abs x <= 2 ^ 51)%Z ->
  (Z.abs y <= 2 ^ 51)%Z ->
  (Z.abs dx <= 2 ^ 51)%Z ->
  (Z.abs dy <= 2 ^ 51)%Z ->
  getCellCoordinates
    (number_add (Fin (inject_Z x)) (Fin (inject_Z dx)))
    (number_add (Fin (inject_Z y)) (Fin (inject_Z dy)))
    (on_super
       (Graphics.set_position
          (number_add (Fin (inject_Z ox)) (Fin (inject_Z dx)))
          (number_add (Fin (inject_Z oy)) (Fin (inject_Z dy))))
       this) =
  getCellCoordinates (Fin (inject_Z x)) (Fin (inject_Z y)) this.
Proof.
  intros Hx Hy _ _ _ _ _ _. unfold getCellCoordinates, bounds, cellSize.
  cbn [on_super with_super super Graphics.set_position Graphics.x Graphics.y
       Bounds.x1 Bounds.y1 _cellSize _correctedWidth].
  rewrite Hx, Hy, !number_add_inject_Z, !number_sub_inject_Z.
  replace (x + dx - (ox + dx))%Z with (x - ox)%Z by lia.
  replace (y + dy - (oy + dy))%Z with (y - oy)%Z by lia.
  reflexivity.
Qed.

Lemma getCellCoordinates_translation_witness :
  getCellCoordinates
    (number_add (Fin (inject_Z 9)) (Fin (inject_Z 100)))
    (number_add (Fin (inject_Z 3)) (Fin (inject_Z (-7))))
    (on_super
       (Graphics.set_position
          (number_add (Fin (inject_Z 0)) (Fin (inject_Z 100)))
          (number_add (Fin (inject_Z 0)) (Fin (inject_Z (-7)))))
       grid16) =
  getCellCoordinates (Fin (inject_Z 9)) (Fin (inject_Z 3)) grid16.
Proof.
  apply (getCellCoordinates_translation grid16 0 0 9 3 100 (-7));
    try reflexivity; simpl; lia.
Defined.

Lemma mousemove_listener_within (this : PixiJSGrid) (e : InteractionEvent.t) :
  within_bounds (bounds this) (InteractionEvent.global e) ->
  mousemove_listener this e =
  [onMousemove e
     (getCellCoordinates (Point.x (InteractionEvent.global e))
        (Point.y (InteractionEvent.global e)) this)].
Proof.
  intros (H1 & H2 & H3 & H4). unfold mousemove_listener, number_geb.
  cbv zeta. now rewrite H1, H2, H3, H4.
Qed.

Lemma number_between_finite (a b : Q) (p : number) :
  number_leb (Fin a) p = true ->
  number_leb p (Fin b) = true ->
  exists x : Q, p = Fin x /\ a <= x /\ x <= b.
Proof.
  destruct p as [x| | |]; cbn [number_leb]; try discriminate.
  intros Ha Hb. apply Qle_bool_iff in Ha. apply Qle_bool_iff in Hb.
  now exists x.
Qed.

(** X13: the cell coordinates that the hook receives are integers from 0 to
    the floor [l] of the number of lines, on both axes, on a grid whose
    position, width in use [cw] and cell size [cs] are integers, the position
    up to 2^51 in magnitude, with [0 <= cw <= 2^52] and [0 < cs <= 2^52],
    wherever within the bounds the pointer is.  The upper end is reached: for
    a pointer on the right and bottom edge of the bounds, which are
    inclusive, the hook receives [l], which is the number of lines itself
    when the cell size divides the width, one more than the index of the
    last cell. *)
Theorem hook_cell_range (this : PixiJSGrid) (ox oy cw cs : Z) :
  Graphics.x (super this) = Fin (inject_Z ox) ->
  Graphics.y (super this) = Fin (inject_Z oy) ->
  _correctedWidth this = VNum (Fin (inject_Z cw)) ->
  cellSize this = VNum (Fin (inject_Z cs)) ->
  (Z.abs ox <= 2 ^ 51)%Z ->
  (Z.abs oy <= 2 ^ 51)%Z ->
  (0 <= cw <= 2 ^ 52)%Z ->
  (0 < cs <= 2 ^ 52)%Z ->
  let l := (cw / cs)%Z in
  (forall e : InteractionEvent.t,
     within_bounds (bounds this) (InteractionEvent.global e) ->
     exists i j : Z,
       mousemove_listener this e =
       [onMousemove e (Point.mk (Fin (inject_Z i)) (Fin (inject_Z j)))] /\
       (0 <= i <= l)%Z /\ (0 <= j <= l)%Z) /\
  (forall stamp : nat,
     let corner :=
       InteractionEvent.mk
         (Point.mk (Bounds.x2 (bounds this)) (Bounds.y2 (bounds this)))
         stamp in
     mousemove_listener this corner =
     [onMousemove corner (Point.mk (Fin (inject_Z l)) (Fin (inject_Z l)))]) /\
  ((cs | cw)%Z -> amtLines this = Fin (inject_Z l)).
Proof.
  intros Hx Hy Hcw Hcs _ _ [Hnn _] [Hpos _] l.
  assert (Hq : 0 < inject_Z cs)
    by (change 0 with (inject_Z 0); now apply Qlt_inject_Z).
  assert (Hqw : 0 <= inject_Z cw)
    by (change 0 with (inject_Z 0); now apply Qle_inject_Z).
  assert (Hne : ~ inject_Z cs == 0) by lra.
  assert (Hb : bounds this =
               Bounds.mk (Fin (inject_Z ox)) (Fin (inject_Z oy))
                 (Fin (inject_Z (ox + cw))) (Fin (inject_Z (oy + cw)))).
  { unfold bounds. rewrite Hx, Hy, Hcw. cbn [ToNumber].
    now rewrite !number_add_inject_Z. }
  assert (Hidx : forall (u : Q) (o : Z),
            inject_Z o <= u -> u <= inject_Z (o + cw) ->
            (0 <= Qfloor ((u - inject_Z o) / inject_Z cs) <= l)%Z).
  { intros u o Hlo Hhi. rewrite inject_Z_plus in Hhi. split.
    - rewrite <- (Qfloor_Z 0). apply Qfloor_resp_le.
      change (inject_Z 0) with 0. apply Qle_shift_div_l; [assumption|lra].
    - subst l. rewrite <- Qfloor_div_inject_Z by assumption.
      apply Qfloor_resp_le. apply Qle_shift_div_l; [assumption|].
      assert ((u - inject_Z o) / inject_Z cs * inject_Z cs ==
              u - inject_Z o) by now field.
      lra. }
  split; [|split].
  - intros e (H1 & H2 & H3 & H4).
    rewrite (mousemove_listener_within this e) by now repeat split.
    rewrite Hb in H1, H2, H3, H4.
    cbn [Bounds.x1 Bounds.x2 Bounds.y1 Bounds.y2] in H1, H2, H3, H4.
    destruct (number_between_finite _ _ _ H1 H2) as (x & Ex & Hx1 & Hx2).
    destruct (number_between_finite _ _ _ H3 H4) as (y & Ey & Hy1 & Hy2).
    rewrite Ex, Ey.
    rewrite (getCellCoordinates_finite this _ _ _ x y Hx Hy Hcs Hne).
    eexists. eexists. split; [reflexivity|].
    split; now apply Hidx.
  - intros stamp corner. subst corner.
    rewrite mousemove_listener_within.
    + cbn [InteractionEvent.global Point.x Point.y]. rewrite Hb.
      cbn [Bounds.x2 Bounds.y2].
      rewrite (getCellCoordinates_integers this ox oy cs _ _ Hx Hy Hcs Hpos).
      replace (ox + cw - ox)%Z with cw by lia.
      replace (oy + cw - oy)%Z with cw by lia.
      reflexivity.
    + cbn [InteractionEvent.global]. rewrite Hb. unfold within_bounds.
      cbn [Bounds.x1 Bounds.x2 Bounds.y1 Bounds.y2 Point.x Point.y
           number_leb].
      repeat split; apply Qle_bool_iff; apply Qle_inject_Z; lia.
  - intros [k Hk]. unfold amtLines. rewrite Hcw, Hcs. cbn [ToNumber].
    subst l. rewrite Hk, Z.div_mul by lia.
    apply number_div_inject_Z. lia.
Qed.

Lemma hook_cell_range_witness :
  (forall e : InteractionEvent.t,
     within_bounds (bounds grid16) (InteractionEvent.global e) ->
     exists i j : Z,
       mousemove_listener grid16 e =
       [onMousemove e (Point.mk (Fin (inject_Z i)) (Fin (inject_Z j)))] /\
       (0 <= i <= 16 / 4)%Z /\ (0 <= j <= 16 / 4)%Z) /\
  (forall stamp : nat,
     let corner :=
       InteractionEvent.mk
         (Point.mk (Bounds.x2 (bounds grid16)) (Bounds.y2 (bounds grid16)))
         stamp in
     mousemove_listener grid16 corner =
     [onMousemove corner
        (Point.mk (Fin (inject_Z (16 / 4))) (Fin (inject_Z (16 / 4))))]) /\
  ((4 | 16)%Z -> amtLines grid16 = Fin (inject_Z (16 / 4))).
Proof.
  apply (hook_cell_range grid16 0 0 16 4); try reflexivity; simpl; lia.
Defined.

(** *** Drawing, on and on *)

(** X14: [drawGrid()] starts from a cleared surface: what was drawn before,
    by the host or by an earlier [drawGrid()], and the path that was being
    drawn, have no effect on what it returns.  In particular a second
    [drawGrid()] leaves the object as the first one did. *)
Theorem drawGrid_discards_earlier_drawing (fuel : nat) (this : PixiJSGrid) :
  (forall (drawn : list Graphics.Segment) (path : option Point.t),
     drawGrid fuel
       (on_super
          (fun s =>
             Graphics.mk (Graphics.x s) (Graphics.y s) (Graphics.line s)
               (Graphics.defaultLine s) path drawn (Graphics.interactive s))
          this) =
     drawGrid fuel this) /\
  (forall px py : number,
     drawGrid fuel (on_super (Graphics.lineTo px py) this) =
     drawGrid fuel this) /\
  (forall (r : result) (once : PixiJSGrid),
     drawGrid fuel this = Some (r, once) ->
     drawGrid fuel once = Some (r, once)).
Proof.
  split; [|split].
  - intros drawn path. rewrite <- drawGrid_cleared.
    rewrite <- (drawGrid_cleared fuel this). reflexivity.
  - intros px py. rewrite <- drawGrid_cleared.
    rewrite <- (drawGrid_cleared fuel this). reflexivity.
  - intros r once Hdraw.
    pose proof (drawGrid_same fuel this once r Hdraw) as [_ Hsame].
    rewrite <- drawGrid_cleared.
    rewrite (cleared_same_grid this once Hsame).
    now rewrite drawGrid_cleared.
Qed.

Lemma drawGrid_discards_earlier_drawing_witness :
  exists once : PixiJSGrid,
    drawGrid 10 grid16 = Some (This, once) /\
    drawGrid 10 once = Some (This, once).
Proof.
  eexists. split; [vm_compute; reflexivity|].
  apply (proj2 (proj2 (drawGrid_discards_earlier_drawing 10 grid16))).
  vm_compute. reflexivity.
Defined.

(** X15: with the width in use [+Infinity] and a finite cell size greater than
    zero the number of lines is [+Infinity] and [drawGrid()] never returns:
    its loop runs on whatever the number of rounds allowed.  The constructor
    makes such an object from the width [Infinity]. *)
Theorem drawGrid_never_returns_on_infinite_width (cs : Q) :
  0 < cs ->
  (forall this : PixiJSGrid,
     _correctedWidth this = VNum PInf ->
     _cellSize this = VNum (Fin cs) ->
     amtLines this = PInf /\
     forall fuel : nat, drawGrid fuel this = None) /\
  (forall (hostLine : LineStyle.t) (lineConfig : option LineStyle.t)
          (dcw db : option bool),
     exists this : PixiJSGrid,
       new_PixiJSGrid hostLine (VNum PInf) (VNum (Fin cs)) lineConfig dcw db =
         Some this /\
       _correctedWidth this = VNum PInf /\
       _cellSize this = VNum (Fin cs)).
Proof.
  intros Hpos.
  assert (Hle : Qle_bool 0 cs = true) by (apply Qle_bool_iff; lra).
  split.
  - intros this Hcw Hcs.
    assert (Hamt : forall g : PixiJSGrid,
              _correctedWidth g = VNum PInf ->
              _cellSize g = VNum (Fin cs) -> amtLines g = PInf).
    { intros g Hg1 Hg2. unfold amtLines, cellSize. rewrite Hg1, Hg2.
      cbn [ToNumber number_div]. now rewrite Hle. }
    split; [now apply Hamt|].
    intros fuel. rewrite drawGrid_unfold.
    assert (Hbound : number_sub (amtLines (cleared this))
                       (if _drawBoundaries (cleared this)
                        then Fin 0 else Fin 1) = PInf).
    { rewrite (Hamt (cleared this) Hcw Hcs).
      now destruct (_drawBoundaries (cleared this)). }
    destruct (_drawBoundaries this);
      now rewrite (drawGrid_loop_unbounded fuel _ (cleared this) Hbound).
  - intros hostLine lineConfig dcw db.
    destruct (new_PixiJSGrid_total hostLine (VNum PInf) (VNum (Fin cs))
                lineConfig dcw db) as (c & Hset & Hnew).
    rewrite set_cellSize_truthy in Hset.
    2:{ cbn [ToBoolean number_truthy]. apply negb_true_iff.
        apply not_true_iff_false. intros H. apply Qeq_bool_iff in H. lra. }
    injection Hset as <-.
    eexists. split; [exact Hnew|].
    split; [|reflexivity].
    unfold before_set_cellSize.
    cbn [with_super with_cellSize with_drawBoundaries _correctedWidth].
    now rewrite _correctWidth_width.
Qed.

Lemma drawGrid_never_returns_on_infinite_width_witness :
  exists this : PixiJSGrid,
    new_PixiJSGrid example_hostLine (VNum PInf) (VNum (Fin 5)) None None
      None = Some this /\
    _correctedWidth this = VNum PInf /\
    _cellSize this = VNum (Fin 5).
Proof.
  apply (proj2 (drawGrid_never_returns_on_infinite_width 5 eq_refl)).
Defined.

Lemma corrected_width_nonpositive (w : Q) :
  w <= 0 ->
  (w == 0 /\ corrected_width (Fin w) = Fin 0) \/
  (w < 0 /\ corrected_width (Fin w) = NaN).
Proof.
  intros Hw. destruct (Qlt_le_dec w 0) as [Hneg|Hnn].
  - right. split; [assumption|]. unfold corrected_width, Math_sqrt.
    destruct (Qle_bool 0 w) eqn:E; [|reflexivity].
    apply Qle_bool_iff in E. lra.
  - left. assert (Hz : w == 0) by lra. split; [assumption|].
    unfold corrected_width, Math_sqrt, Qsqrt_exact.
    rewrite (Qred_complete w 0 Hz).
    replace (Qle_bool 0 w) with true
      by (symmetry; apply Qle_bool_iff; lra).
    reflexivity.
Qed.

Lemma amtLines_cleared (this : PixiJSGrid) :
  amtLines (cleared this) = amtLines this.
Proof.
  reflexivity.
Qed.

Lemma number_leb_NaN (p : number) : number_leb p NaN = false.
Proof.
  now destruct p.
Qed.

(** X16: an object made with a finite width that is zero or negative and no
    cell size (or a falsy one) has the cell size 0 or [NaN] and [NaN] lines;
    [drawGrid()] returns on it at once and draws nothing.  With a negative
    width the width in use is [NaN], no pointer is within the bounds and the
    hook is never called. *)
Theorem nonpositive_width_draws_nothing (hostLine : LineStyle.t) (w : Q)
    (cs : value) (lineConfig : option LineStyle.t) (dcw db : option bool) :
  w <= 0 ->
  ToBoolean cs = false ->
  exists this : PixiJSGrid,
    new_PixiJSGrid hostLine (VNum (Fin w)) cs lineConfig dcw db = Some this /\
    (cellSize this = VNum (Fin 0) \/ cellSize this = VNum NaN) /\
    amtLines this = NaN /\
    (forall fuel : nat,
       exists this' : PixiJSGrid,
         drawGrid (S fuel) this = Some (This, this') /\
         Graphics.geometry (super this') = []) /\
    (w < 0 ->
     gridWidth this = VNum NaN /\
     forall e : InteractionEvent.t, mousemove_listener this e = []).
Proof.
  intros Hw Hcs.
  destruct (new_PixiJSGrid_total hostLine (VNum (Fin w)) cs lineConfig dcw db)
    as (c & Hset & Hnew).
  set (g := before_set_cellSize hostLine (VNum (Fin w)) dcw db) in *.
  assert (Hcw : _correctedWidth g = VNum (corrected_width (Fin w))).
  { unfold g, before_set_cellSize.
    cbn [with_drawBoundaries _correctedWidth].
    now rewrite _correctWidth_width. }
  assert (Hcase : (corrected_width (Fin w) = Fin 0 /\ c = VNum (Fin 0)) \/
                  (w < 0 /\ corrected_width (Fin w) = NaN /\ c = VNum NaN)).
  { destruct (corrected_width_nonpositive w Hw) as [[_ H0]|[Hneg Hnan]].
    - left. split; [assumption|].
      rewrite (set_cellSize_falsy cs g (Fin 0) Hcs) in Hset
        by now rewrite Hcw, H0.
      now injection Hset as <-.
    - right. split; [assumption|]. split; [assumption|].
      rewrite (set_cellSize_falsy cs g NaN Hcs) in Hset
        by now rewrite Hcw, Hnan.
      now injection Hset as <-. }
  eexists. split; [exact Hnew|].
  assert (Hamt : forall s : Graphics.t,
            amtLines (with_super s (with_cellSize c g)) = NaN).
  { intros s. unfold amtLines, cellSize.
    cbn [with_super with_cellSize _correctedWidth _cellSize]. rewrite Hcw.
    destruct Hcase as [[-> ->]|(_ & -> & ->)]; reflexivity. }
  split; [|split; [apply Hamt|split]].
  - unfold cellSize. cbn [with_super with_cellSize _cellSize].
    destruct Hcase as [[_ ->]|(_ & _ & ->)]; [now left|now right].
  - intros fuel. rewrite drawGrid_unfold, drawGrid_loop_step.
    rewrite amtLines_cleared, Hamt.
    replace (number_sub NaN
               (if _drawBoundaries
                     (cleared
                        (with_super (new_surface hostLine lineConfig)
                           (with_cellSize c g)))
                then Fin 0 else Fin 1))
      with NaN by now destruct (_drawBoundaries _).
    rewrite number_leb_NaN.
    eexists. split; reflexivity.
  - intros Hneg.
    destruct Hcase as [[H0 _]|(_ & Hnan & _)].
    { exfalso. destruct (corrected_width_nonpositive w Hw)
        as [[Hz _]|[_ Hnan]]; [lra|]. rewrite Hnan in H0. discriminate. }
    split.
    + unfold gridWidth. cbn [with_super with_cellSize _correctedWidth].
      now rewrite Hcw, Hnan.
    + intros e. unfold mousemove_listener, bounds.
      cbn [with_super with_cellSize _correctedWidth super new_surface
           Graphics.x Graphics.y Bounds.x1 Bounds.x2 Bounds.y1 Bounds.y2].
      rewrite Hcw, Hnan. cbn [ToNumber number_add].
      rewrite !number_leb_NaN, !andb_false_r. reflexivity.
Qed.

Lemma nonpositive_width_draws_nothing_witness :
  exists this : PixiJSGrid,
    new_PixiJSGrid example_hostLine (VNum (Fin 0)) VUndefined None None None =
      Some this /\
    (cellSize this = VNum (Fin 0) \/ cellSize this = VNum NaN) /\
    amtLines this = NaN /\
    (forall fuel : nat,
       exists this' : PixiJSGrid,
         drawGrid (S fuel) this = Some (This, this') /\
         Graphics.geometry (super this') = []) /\
    (0 < 0 ->
     gridWidth this = VNum NaN /\
     forall e : InteractionEvent.t, mousemove_listener this e = []).
Proof.
  apply (nonpositive_width_draws_nothing example_hostLine 0 VUndefined None
           None None); [unfold Qle; simpl; lia|reflexivity].
Defined.

(** *** The lines drawn *)

Lemma In_indices (i first : Z) (count : nat) :
  In i (indices first count) <->
  (first <= i < first + Z.of_nat count)%Z.
Proof.
  unfold indices. rewrite in_map_iff. split.
  - intros (k & <- & Hk). apply in_seq in Hk. lia.
  - intros Hi. exists (Z.to_nat (i - first)). split; [lia|].
    apply in_seq. lia.
Qed.

(** What rounding does to the offsets.  On [new PixiJSGrid(25, 25/39)] the
    number of lines is 39 in doubles, and the offset of the last of them,
    [39 * cellSize], is 25.000000000000004, beyond the width 25. *)
Lemma line_offset_rounding :
  Binary64.to_number
    (Binary64.amtLines (Binary64.of_Z 25) (Binary64.quotient 25 39)) =
    Fin 39 /\
  number_ltb (Fin 25)
    (Binary64.to_number
       (Binary64.line_offset (Binary64.of_Z 39) (Binary64.quotient 25 39))) =
    true.
Proof.
  split; vm_compute; reflexivity.
Qed.

(** X17: [drawGrid()] never draws outside the grid.  On a grid whose width in
    use [cw] and cell size [cs] are integers, with [0 <= cw <= 2^52] and
    [0 < cs <= 2^52], every segment drawn is a vertical line from [y = 0] to
    [y = cw] or a horizontal line from [x = 0] to [x = cw], and both its ends
    lie in the square from 0 to [cw]. *)
Theorem drawn_lines_stay_in_square (this : PixiJSGrid) (cw cs : Z)
    (fuel : nat) :
  _correctedWidth this = VNum (Fin (inject_Z cw)) ->
  _cellSize this = VNum (Fin (inject_Z cs)) ->
  (0 <= cw <= 2 ^ 52)%Z ->
  (0 < cs <= 2 ^ 52)%Z ->
  (Z.to_nat (cw / cs + 1) < fuel)%nat ->
  exists this' : PixiJSGrid,
    drawGrid fuel this = Some (This, this') /\
    Forall
      (fun s : Graphics.Segment =>
         in_square (inject_Z cw) (Graphics.from s) /\
         in_square (inject_Z cw) (Graphics.to s) /\
         (exists o : number,
            (Graphics.from s = Point.mk o (Fin 0) /\
             Graphics.to s = Point.mk o (Fin (inject_Z cw))) \/
            (Graphics.from s = Point.mk (Fin 0) o /\
             Graphics.to s = Point.mk (Fin (inject_Z cw)) o)))
      (Graphics.geometry (super this')).
Proof.
  intros Hcw Hcs [Hnn _] [Hpos _] Hfuel.
  destruct (drawGrid_integers this cw cs fuel Hcw Hcs Hpos Hfuel)
    as (this' & Hdraw & _ & Hgeom).
  exists this'. split; [exact Hdraw|].
  rewrite Hgeom. apply Forall_forall. intros s Hs.
  unfold grid_lines in Hs. apply in_flat_map in Hs.
  destruct Hs as (i & Hi & Hs).
  assert (Hl : (0 <= cw / cs)%Z) by (apply Z.div_pos; lia).
  assert (Hrange : (0 <= i <= cw / cs)%Z)
    by (destruct (_drawBoundaries this); apply In_indices in Hi; lia).
  assert (Hoff : (0 <= i * cs <= cw)%Z).
  { split; [lia|].
    apply Z.le_trans with (cw / cs * cs)%Z; [nia|].
    rewrite Z.mul_comm. apply Z.mul_div_le. lia. }
  assert (H0 : 0 <= inject_Z (i * cs) /\ inject_Z (i * cs) <= inject_Z cw).
  { split; [change 0 with (inject_Z 0)|]; apply Qle_inject_Z; lia. }
  assert (H00 : 0 <= 0 /\ 0 <= inject_Z cw).
  { split; [lra|]. change 0 with (inject_Z 0). apply Qle_inject_Z; lia. }
  assert (Hww : 0 <= inject_Z cw /\ inject_Z cw <= inject_Z cw).
  { split; [apply H00|lra]. }
  destruct Hs as [<-|[<-|[]]]; unfold column, row;
    cbn [Graphics.from Graphics.to]; rewrite number_mul_inject_Z.
  - split; [|split].
    + eexists. eexists. split; [reflexivity|]. now split.
    + eexists. eexists. split; [reflexivity|]. now split.
    + eexists. left. split; reflexivity.
  - split; [|split].
    + eexists. eexists. split; [reflexivity|]. now split.
    + eexists. eexists. split; [reflexivity|]. now split.
    + eexists. right. split; reflexivity.
Qed.

Lemma drawn_lines_stay_in_square_witness :
  exists this' : PixiJSGrid,
    drawGrid 10 grid25 = Some (This, this') /\
    Forall
      (fun s : Graphics.Segment =>
         in_square (inject_Z 25) (Graphics.from s) /\
         in_square (inject_Z 25) (Graphics.to s) /\
         (exists o : number,
            (Graphics.from s = Point.mk o (Fin 0) /\
             Graphics.to s = Point.mk o (Fin (inject_Z 25))) \/
            (Graphics.from s = Point.mk (Fin 0) o /\
             Graphics.to s = Point.mk (Fin (inject_Z 25)) o)))
      (Graphics.geometry (super this')).
Proof.
  apply (drawn_lines_stay_in_square grid25 25 10 10); try reflexivity.
  - simpl; lia.
  - simpl; lia.
  - vm_compute; lia.
Defined.

Lemma indices_snoc (first : Z) (count : nat) :
  indices first (S count) =
  indices first count ++ [(first + Z.of_nat count)%Z].
Proof.
  unfold indices. rewrite seq_S, map_app. reflexivity.
Qed.

Lemma grid_lines_app (style : LineStyle.t) (cs cw : number)
    (idx idx' : list Z) :
  grid_lines style cs cw (idx ++ idx') =
  grid_lines style cs cw idx ++ grid_lines style cs cw idx'.
Proof.
  unfold grid_lines. apply flat_map_app.
Qed.

(** X18: the boundaries are the first and the last lines, and nothing else
    depends on [drawBoundaries].  On a grid whose width in use [cw] and cell
    size [cs] are integers, with [0 <= cw <= 2^52] and [0 < cs <= 2^52], and
    with [l] the integer quotient of the two: when [1 <= l], what is drawn
    with [drawBoundaries] true is the column and row of index 0, then what is
    drawn with [drawBoundaries] false, then the column and row of index [l];
    when [l = 0] (the cell is wider than the grid) it is the column and row
    of index 0 alone, and with [drawBoundaries] false nothing is drawn. *)
Theorem boundaries_are_first_and_last_lines (this : PixiJSGrid) (cw cs : Z)
    (fuel : nat) :
  _correctedWidth this = VNum (Fin (inject_Z cw)) ->
  _cellSize this = VNum (Fin (inject_Z cs)) ->
  (0 <= cw <= 2 ^ 52)%Z ->
  (0 < cs <= 2 ^ 52)%Z ->
  (Z.to_nat (cw / cs + 1) < fuel)%nat ->
  let l := (cw / cs)%Z in
  let style := Graphics.line (super this) in
  let width := Fin (inject_Z cw) in
  let size := Fin (inject_Z cs) in
  exists bounded inner : PixiJSGrid,
    drawGrid fuel (with_drawBoundaries true this) = Some (This, bounded) /\
    drawGrid fuel (with_drawBoundaries false this) = Some (This, inner) /\
    ((1 <= l)%Z ->
     Graphics.geometry (super bounded) =
     [column style size width 0; row style size width 0] ++
     Graphics.geometry (super inner) ++
     [column style size width l; row style size width l]) /\
    (l = 0%Z ->
     Graphics.geometry (super bounded) =
     [column style size width 0; row style size width 0] /\
     Graphics.geometry (super inner) = []).
Proof.
  intros Hcw Hcs _ [Hpos _] Hfuel l style width size.
  destruct (drawGrid_integers (with_drawBoundaries true this) cw cs fuel
              Hcw Hcs Hpos Hfuel) as (bounded & Hdraw1 & _ & Hgeom1).
  destruct (drawGrid_integers (with_drawBoundaries false this) cw cs fuel
              Hcw Hcs Hpos Hfuel) as (inner & Hdraw2 & _ & Hgeom2).
  exists bounded, inner.
  split; [exact Hdraw1|]. split; [exact Hdraw2|].
  rewrite Hgeom1, Hgeom2.
  cbn [with_drawBoundaries _drawBoundaries super].
  fold style width size l.
  split.
  - intros Hl.
    replace (Z.to_nat (l + 1)) with (S (S (Z.to_nat (l - 1)))) by lia.
    rewrite indices_succ, indices_snoc.
    change (0 + 1)%Z with 1%Z.
    replace (1 + Z.of_nat (Z.to_nat (l - 1)))%Z with l by lia.
    change (0%Z :: indices 1 (Z.to_nat (l - 1)) ++ [l])
      with ([0%Z] ++ indices 1 (Z.to_nat (l - 1)) ++ [l]).
    rewrite !grid_lines_app. reflexivity.
  - intros ->. split; reflexivity.
Qed.

Lemma boundaries_are_first_and_last_lines_witness :
  exists bounded inner : PixiJSGrid,
    drawGrid 10 (with_drawBoundaries true grid16) = Some (This, bounded) /\
    drawGrid 10 (with_drawBoundaries false grid16) = Some (This, inner) /\
    ((1 <= 16 / 4)%Z ->
     Graphics.geometry (super bounded) =
     [column (Graphics.line (super grid16)) (Fin (inject_Z 4))
        (Fin (inject_Z 16)) 0;
      row (Graphics.line (super grid16)) (Fin (inject_Z 4))
        (Fin (inject_Z 16)) 0] ++
     Graphics.geometry (super inner) ++
     [column (Graphics.line (super grid16)) (Fin (inject_Z 4))
        (Fin (inject_Z 16)) (16 / 4);
      row (Graphics.line (super grid16)) (Fin (inject_Z 4))
        (Fin (inject_Z 16)) (16 / 4)]) /\
    (16 / 4 = 0 ->
     Graphics.geometry (super bounded) =
     [column (Graphics.line (super grid16)) (Fin (inject_Z 4))
        (Fin (inject_Z 16)) 0;
      row (Graphics.line (super grid16)) (Fin (inject_Z 4))
        (Fin (inject_Z 16)) 0] /\
     Graphics.geometry (super inner) = [])%Z.
Proof.
  apply (boundaries_are_first_and_last_lines grid16 16 4 10);
    try reflexivity.
  - simpl; lia.
  - simpl; lia.
  - vm_compute; lia.
Defined.

(** X19: the far boundaries are drawn only when the cell size divides the
    width.  On a grid with [drawBoundaries] true whose width in use [cw] and
    cell size [cs] are integers, with [0 <= cw <= 2^52] and
    [0 < cs <= 2^52], the line from [(cw, 0)] to [(cw, cw)], the right
    boundary, is among the segments drawn exactly when [cw] is a multiple of
    [cs], which is when the number of lines is an integer. *)
Theorem right_boundary_drawn_iff_integer_line_count (this : PixiJSGrid)
    (cw cs : Z) (fuel : nat) :
  _correctedWidth this = VNum (Fin (inject_Z cw)) ->
  _cellSize this = VNum (Fin (inject_Z cs)) ->
  _drawBoundaries this = true ->
  (0 <= cw <= 2 ^ 52)%Z ->
  (0 < cs <= 2 ^ 52)%Z ->
  (Z.to_nat (cw / cs + 1) < fuel)%nat ->
  exists this' : PixiJSGrid,
    drawGrid fuel this = Some (This, this') /\
    ((exists s : Graphics.Segment,
        In s (Graphics.geometry (super this')) /\
        Graphics.from s = Point.mk (Fin (inject_Z cw)) (Fin 0) /\
        Graphics.to s = Point.mk (Fin (inject_Z cw)) (Fin (inject_Z cw))) <->
     (cs | cw)%Z).
Proof.
  intros Hcw Hcs Hdb [Hnn _] [Hpos _] Hfuel.
  destruct (drawGrid_integers this cw cs fuel Hcw Hcs Hpos Hfuel)
    as (this' & Hdraw & _ & Hgeom).
  exists this'. split; [exact Hdraw|].
  rewrite Hgeom, Hdb. unfold grid_lines. split.
  - intros (s & Hs & Hfrom & Hto).
    apply in_flat_map in Hs. destruct Hs as (i & Hi & Hs).
    destruct Hs as [<-|[<-|[]]]; unfold column, row in Hfrom;
      cbn [Graphics.from] in Hfrom; rewrite number_mul_inject_Z in Hfrom.
    + injection Hfrom as Hq. exists i. lia.
    + injection Hfrom as Hq _. exists 0%Z. lia.
  - intros [k Hk].
    exists (column (Graphics.line (super this)) (Fin (inject_Z cs))
              (Fin (inject_Z cw)) k).
    split; [|split].
    + apply in_flat_map. exists k. split; [|now left].
      apply In_indices. rewrite Hk, Z.div_mul by lia.
      assert (0 <= k)%Z by nia. lia.
    + unfold column. cbn [Graphics.from]. rewrite number_mul_inject_Z.
      now rewrite Hk.
    + unfold column. cbn [Graphics.to]. rewrite number_mul_inject_Z.
      now rewrite Hk.
Qed.

Lemma right_boundary_drawn_iff_integer_line_count_witness :
  exists this' : PixiJSGrid,
    drawGrid 10 grid25 = Some (This, this') /\
    ((exists s : Graphics.Segment,
        In s (Graphics.geometry (super this')) /\
        Graphics.from s = Point.mk (Fin (inject_Z 25)) (Fin 0) /\
        Graphics.to s = Point.mk (Fin (inject_Z 25)) (Fin (inject_Z 25))) <->
     (10 | 25)%Z).
Proof.
  apply (right_boundary_drawn_iff_integer_line_count grid25 25 10 10);
    try reflexivity.
  - simpl; lia.
  - simpl; lia.
  - vm_compute; lia.
Defined.

(** *** Construction and clearing *)

(** X20: the constructor always returns, draws nothing, and leaves the object
    at the origin, interactive, with the line style it was given in effect,
    or [{width: 1, color: 0xffffff, alpha: 1, alignment: 0.5, native: true}]
    when it was given none; the two flags are true when omitted; the bounds
    run from the origin to the width in use. *)
Theorem constructor_postconditions :
  forall (hostLine : LineStyle.t) (width cs : value)
         (lineConfig : option LineStyle.t) (dcw db : option bool),
  exists this : PixiJSGrid,
    new_PixiJSGrid hostLine width cs lineConfig dcw db = Some this /\
    Graphics.geometry (super this) = [] /\
    Graphics.interactive (super this) = true /\
    Graphics.line (super this) =
      match lineConfig with
      | Some c => c
      | None => LineStyle.mk (Fin 1) (Fin 16777215) (Fin 1) (Fin (1 # 2)) true
      end /\
    _gridWidth this = width /\
    _doCorrectWidth this =
      match dcw with Some b => b | None => true end /\
    _drawBoundaries this =
      match db with Some b => b | None => true end /\
    bounds this =
      Bounds.mk (Fin 0) (Fin 0)
        (number_add (Fin 0) (ToNumber (gridWidth this)))
        (number_add (Fin 0) (ToNumber (gridWidth this))).
Proof.
  intros hostLine width cs lineConfig dcw db.
  destruct (new_PixiJSGrid_total hostLine width cs lineConfig dcw db)
    as (c & _ & Hnew).
  eexists. split; [exact Hnew|].
  unfold before_set_cellSize, _correctWidth, bounds, gridWidth.
  cbn [_doCorrectWidth].
  destruct (default_bool true dcw) eqn:Ed, dcw as [[|]|], db as [[|]|],
    lineConfig as [l|]; try discriminate; now repeat split.
Qed.

(** The loop of [drawGrid] draws in the line style it finds. *)
Lemma drawGrid_loop_styles (fuel : nat) :
  forall (i : number) (this this' : PixiJSGrid),
    drawGrid_loop fuel i this = Some this' ->
    Forall (fun s => Graphics.style s = Graphics.line (super this))
      (Graphics.geometry (super this)) ->
    Forall (fun s => Graphics.style s = Graphics.line (super this))
      (Graphics.geometry (super this')).
Proof.
  induction fuel as [|fuel IH]; intros i this this' H Hall; [discriminate|].
  rewrite drawGrid_loop_step in H.
  destruct (number_leb _ _).
  - apply IH in H.
    + exact H.
    + unfold draw_lines_at, on_super.
      cbn [with_super super Graphics.lineTo Graphics.moveTo Graphics.line
           Graphics.geometry Graphics.currentPath _cellSize _correctedWidth].
      rewrite !Forall_app. repeat split; try assumption;
        repeat constructor.
  - now injection H as <-.
Qed.

(** X21: [clearGrid(false)] loses the line style for good.  It removes what
    is drawn, as [clearGrid(true)] does, and leaves the host's default line
    style in effect; [drawGrid()], which keeps the style it finds, then
    draws, whenever it returns, every line in the host's default style and
    not in the style the object was configured with.  [clearGrid(true)]
    keeps the style. *)
Theorem clearGrid_false_loses_line_style (this redrawn : PixiJSGrid)
    (fuel : nat) (r : result) :
  drawGrid fuel (snd (clearGrid (Some false) this)) = Some (r, redrawn) ->
  let bare := snd (clearGrid (Some false) this) in
  let kept := snd (clearGrid (Some true) this) in
  Graphics.geometry (super bare) = [] /\
  Graphics.line (super bare) = Graphics.defaultLine (super this) /\
  Graphics.geometry (super kept) = [] /\
  Graphics.line (super kept) = Graphics.line (super this) /\
  r = This /\
  Graphics.line (super redrawn) = Graphics.defaultLine (super this) /\
  Forall (fun s => Graphics.style s = Graphics.defaultLine (super this))
    (Graphics.geometry (super redrawn)).
Proof.
  intros Hdraw bare kept. subst bare kept.
  rewrite clearGrid_discard in *. rewrite (proj1 (clearGrid_retain this)).
  cbn [snd] in *. repeat split.
  - now apply drawGrid_same in Hdraw.
  - apply drawGrid_same in Hdraw. destruct Hdraw as [_ Hsame].
    apply same_grid_fields in Hsame. now destruct Hsame as (_ & _ & _ & Hl & _).
  - rewrite drawGrid_unfold in Hdraw.
    destruct (drawGrid_loop _ _ _) as [g|] eqn:E; [|discriminate].
    injection Hdraw as _ <-.
    apply drawGrid_loop_styles in E; [exact E|constructor].
Qed.

Lemma clearGrid_false_loses_line_style_witness :
  exists redrawn : PixiJSGrid,
    drawGrid 10 (snd (clearGrid (Some false) grid16)) = Some (This, redrawn) /\
    length (Graphics.geometry (super redrawn)) = 10%nat /\
    Graphics.geometry (super (snd (clearGrid (Some false) grid16))) = [] /\
    Graphics.line (super (snd (clearGrid (Some false) grid16))) =
      Graphics.defaultLine (super grid16) /\
    Graphics.geometry (super (snd (clearGrid (Some true) grid16))) = [] /\
    Graphics.line (super (snd (clearGrid (Some true) grid16))) =
      Graphics.line (super grid16) /\
    This = This /\
    Graphics.line (super redrawn) = Graphics.defaultLine (super grid16) /\
    Forall (fun s => Graphics.style s = Graphics.defaultLine (super grid16))
      (Graphics.geometry (super redrawn)).
Proof.
  eexists. split; [vm_compute; reflexivity|]. split; [reflexivity|].
  apply (clearGrid_false_loses_line_style grid16 _ 10 This).
  vm_compute. reflexivity.
Defined.

(** ** Agreement with the doubles

    On integers in the range of the statements above the program computes,
    in doubles, the values that the model computes.  Here this is checked by
    evaluation, value by value, on ranges of integers. *)

Lemma all_from_spec (f : Z -> bool) (count : nat) :
  forall (first z : Z),
    all_from f first count = true ->
    (first <= z < first + Z.of_nat count)%Z ->
    f z = true.
Proof.
  induction count as [|count IH]; intros first z Hall Hz; [lia|].
  cbn [all_from] in Hall. apply andb_true_iff in Hall.
  destruct Hall as [Hfirst Hrest].
  destruct (Z.eq_dec z first) as [->|Hne]; [exact Hfirst|].
  apply (IH (first + 1)%Z); [exact Hrest|lia].
Qed.

(** X22: in doubles, for every requested width that is an integer from 1 to
    2^14, or one of the 1025 integers from [2^52 - 1024] to 2^52, the width
    that [_correctWidth] assigns is the square of the least integer [n] whose
    square is not less than the width, which is the width that the model
    assigns. *)
Theorem corrected_width_in_doubles (w : Z) :
  (1 <= w <= 2 ^ 14)%Z \/ (2 ^ 52 - 1024 <= w <= 2 ^ 52)%Z ->
  let n := Z.sqrt_up w in
  ((n - 1) * (n - 1) < w <= n * n)%Z /\
  Binary64.to_number (Binary64.corrected_width (Binary64.of_Z w)) =
    Fin (inject_Z (n * n)) /\
  Binary64.to_number (Binary64.corrected_width (Binary64.of_Z w)) =
    corrected_width (Fin (inject_Z w)).
Proof.
  intros Hw n.
  set (agree := fun z : Z =>
         number_eqb
           (Binary64.to_number (Binary64.corrected_width (Binary64.of_Z z)))
           (Fin (inject_Z (Z.sqrt_up z * Z.sqrt_up z))) &&
         number_eqb
           (Binary64.to_number (Binary64.corrected_width (Binary64.of_Z z)))
           (corrected_width (Fin (inject_Z z)))).
  assert (Hlow : all_from agree 1 (Z.to_nat (2 ^ 14)) = true)
    by (vm_cast_no_check (eq_refl true)).
  assert (Hhigh : all_from agree (2 ^ 52 - 1024) 1025 = true)
    by (vm_cast_no_check (eq_refl true)).
  assert (Hagree : agree w = true).
  { destruct Hw as [Hw|Hw].
    - apply (all_from_spec _ _ _ w) in Hlow; [exact Hlow|lia].
    - apply (all_from_spec _ _ _ w) in Hhigh; [exact Hhigh|lia]. }
  unfold agree in Hagree.
  apply andb_true_iff in Hagree. destruct Hagree as [H1 H2].
  apply number_eqb_eq in H1. apply number_eqb_eq in H2.
  split; [|now split].
  assert (H0 : (0 < w)%Z) by lia.
  pose proof (Z.sqrt_up_spec w H0) as Hs. fold n in Hs.
  unfold Z.pred in Hs. lia.
Qed.

Lemma corrected_width_in_doubles_witness :
  ((Z.sqrt_up 10 - 1) * (Z.sqrt_up 10 - 1) < 10 <=
   Z.sqrt_up 10 * Z.sqrt_up 10)%Z /\
  Binary64.to_number (Binary64.corrected_width (Binary64.of_Z 10)) =
    Fin (inject_Z (Z.sqrt_up 10 * Z.sqrt_up 10)) /\
  Binary64.to_number (Binary64.corrected_width (Binary64.of_Z 10)) =
    corrected_width (Fin (inject_Z 10)).
Proof.
  apply (corrected_width_in_doubles 10). left. simpl; lia.
Defined.

(** X23: in doubles, on a grid at an integer [o] from -8 to 8 whose cell size
    is an integer [c] from 1 to 12, the index that [getCellCoordinates]
    returns for an integer coordinate [x] from -20 to 20 is the integer
    quotient, rounded down, of [x - o] by [c], which is the index that the
    model returns. *)
Theorem cell_index_in_doubles (x o c : Z) :
  (-20 <= x <= 20)%Z ->
  (-8 <= o <= 8)%Z ->
  (1 <= c <= 12)%Z ->
  Binary64.to_number
    (Binary64.cell_index (Binary64.of_signed_Z x) (Binary64.of_signed_Z o)
       (Binary64.of_Z c)) =
    Fin (inject_Z ((x - o) / c)) /\
  Binary64.to_number
    (Binary64.cell_index (Binary64.of_signed_Z x) (Binary64.of_signed_Z o)
       (Binary64.of_Z c)) =
    Math_floor
      (number_div (number_sub (Fin (inject_Z x)) (Fin (inject_Z o)))
         (Fin (inject_Z c))).
Proof.
  intros Hx Ho Hc.
  set (agree := fun x o c : Z =>
         number_eqb
           (Binary64.to_number
              (Binary64.cell_index (Binary64.of_signed_Z x)
                 (Binary64.of_signed_Z o) (Binary64.of_Z c)))
           (Fin (inject_Z ((x - o) / c)))).
  assert (Hall :
    all_from
      (fun x => all_from (fun o => all_from (agree x o) 1 12) (-8) 17)
      (-20) 41 = true)
    by (vm_cast_no_check (eq_refl true)).
  apply (all_from_spec _ _ _ x) in Hall; [|lia].
  apply (all_from_spec _ _ _ o) in Hall; [|lia].
  apply (all_from_spec _ _ _ c) in Hall; [|lia].
  unfold agree in Hall. apply number_eqb_eq in Hall.
  split; [exact Hall|].
  rewrite Hall. symmetry. apply cell_index_integers. lia.
Qed.

Lemma cell_index_in_doubles_witness :
  Binary64.to_number
    (Binary64.cell_index (Binary64.of_signed_Z (-1)) (Binary64.of_signed_Z 0)
       (Binary64.of_Z 4)) =
    Fin (inject_Z ((-1 - 0) / 4)) /\
  Binary64.to_number
    (Binary64.cell_index (Binary64.of_signed_Z (-1)) (Binary64.of_signed_Z 0)
       (Binary64.of_Z 4)) =
    Math_floor
      (number_div (number_sub (Fin (inject_Z (-1))) (Fin (inject_Z 0)))
         (Fin (inject_Z 4))).
Proof.
  apply (cell_index_in_doubles (-1) 0 4); simpl; lia.
Defined.

(** X24: in doubles, on a grid whose width in use is an integer [a] from 0 to
    64 and whose cell size is an integer [c] from 1 to 16, the number of
    lines, rounded down, is the integer quotient of [a] by [c], and the loop
    of [drawGrid] makes one round more than that quotient when the
    boundaries are drawn and one less when they are not: as many as in the
    model. *)
Theorem loop_rounds_in_doubles (a c : Z) :
  (0 <= a <= 64)%Z ->
  (1 <= c <= 16)%Z ->
  Binary64.to_number
    (Binary64.Math_floor
       (Binary64.amtLines (Binary64.of_Z a) (Binary64.of_Z c))) =
    Fin (inject_Z (a / c)) /\
  (forall drawBoundaries : bool,
     Binary64.rounds 100 (Binary64.first_counter drawBoundaries)
       (Binary64.loop_bound
          (Binary64.amtLines (Binary64.of_Z a) (Binary64.of_Z c))
          drawBoundaries) =
     length
       (if drawBoundaries then indices 0 (Z.to_nat (a / c + 1))
        else indices 1 (Z.to_nat (a / c - 1)))).
Proof.
  intros Ha Hc.
  set (agree := fun a c : Z =>
         let amt := Binary64.amtLines (Binary64.of_Z a) (Binary64.of_Z c) in
         number_eqb (Binary64.to_number (Binary64.Math_floor amt))
           (Fin (inject_Z (a / c))) &&
         (Binary64.rounds 100 (Binary64.first_counter true)
            (Binary64.loop_bound amt true) =? Z.to_nat (a / c + 1))%nat &&
         (Binary64.rounds 100 (Binary64.first_counter false)
            (Binary64.loop_bound amt false) =? Z.to_nat (a / c - 1))%nat).
  assert (Hall : all_from (fun a => all_from (agree a) 1 16) 0 65 = true)
    by (vm_cast_no_check (eq_refl true)).
  apply (all_from_spec _ _ _ a) in Hall; [|lia].
  apply (all_from_spec _ _ _ c) in Hall; [|lia].
  unfold agree in Hall. cbv zeta in Hall.
  apply andb_true_iff in Hall. destruct Hall as [Hall H3].
  apply andb_true_iff in Hall. destruct Hall as [H1 H2].
  apply number_eqb_eq in H1. apply Nat.eqb_eq in H2. apply Nat.eqb_eq in H3.
  split; [exact H1|].
  intros [|]; rewrite indices_length; assumption.
Qed.

Lemma loop_rounds_in_doubles_witness :
  Binary64.to_number
    (Binary64.Math_floor
       (Binary64.amtLines (Binary64.of_Z 25) (Binary64.of_Z 10))) =
    Fin (inject_Z (25 / 10)) /\
  (forall drawBoundaries : bool,
     Binary64.rounds 100 (Binary64.first_counter drawBoundaries)
       (Binary64.loop_bound
          (Binary64.amtLines (Binary64.of_Z 25) (Binary64.of_Z 10))
          drawBoundaries) =
     length
       (if drawBoundaries then indices 0 (Z.to_nat (25 / 10 + 1))
        else indices 1 (Z.to_nat (25 / 10 - 1)))).
Proof.
  apply (loop_rounds_in_doubles 25 10); simpl; lia.
Defined.

(** ** Agreement with the real square root

    The roots and ceilings that the model computes over the rationals are
    those of the square root of the real numbers. *)

Module RealRoot.
Import Reals Qreals Lra.
Local Open Scope R_scope.

Lemma Q2R_inject_Z (z : Z) : Q2R (inject_Z z) = IZR z.
Proof.
  unfold Q2R. simpl. field.
Qed.

(** A root that [Math_sqrt] gives as a finite number is the real square
    root. *)
Lemma Math_sqrt_real (q r : Q) :
  Math_sqrt (Fin q) = Exact (Fin r) -> Q2R r = sqrt (Q2R q).
Proof.
  intros H. apply Math_sqrt_sound in H. destruct H as [Hsq Hnn].
  apply Qle_Rle in Hnn.
  replace (Q2R 0) with 0 in Hnn by (unfold Q2R; simpl; field).
  apply Qeq_eqR in Hsq. rewrite Q2R_mult in Hsq.
  symmetry. apply sqrt_lem_1; [|assumption|assumption].
  rewrite <- Hsq. now apply Rmult_le_pos.
Qed.

(** The ceiling that [Math_ceil] gives of the root of a positive rational is
    the ceiling of the real square root. *)
Lemma Math_ceil_sqrt_real (q : Q) :
  (0 < q)%Q ->
  exists n : Z,
    Math_ceil (Math_sqrt (Fin q)) = Fin (inject_Z n) /\
    IZR n - 1 < sqrt (Q2R q) <= IZR n.
Proof.
  intros Hq.
  destruct (ceil_sqrt_spec q Hq) as (n & Hceil & Hn & Hlo & Hhi).
  exists n. split; [assumption|].
  apply Qlt_Rlt in Hlo. apply Qle_Rle in Hhi.
  rewrite Q2R_inject_Z in Hlo, Hhi.
  rewrite mult_IZR in Hlo, Hhi. rewrite minus_IZR in Hlo.
  assert (H0 : 0 <= IZR n - 1).
  { assert (1 <= IZR n) by (apply IZR_le; lia). lra. }
  assert (Hnn : 0 <= IZR n) by lra.
  split.
  - rewrite <- (sqrt_square (IZR n - 1)) by assumption.
    apply sqrt_lt_1; [now apply Rmult_le_pos| |assumption].
    apply Rle_trans with ((IZR n - 1) * (IZR n - 1));
      [now apply Rmult_le_pos|lra].
  - rewrite <- (sqrt_square (IZR n)) by assumption.
    apply sqrt_le_1; [|now apply Rmult_le_pos|assumption].
    apply Rle_trans with ((IZR n - 1) * (IZR n - 1));
      [now apply Rmult_le_pos|lra].
Qed.

End RealRoot.
